(** * DevConnector: the profile routes ([routes/api/profile.js])

    A shallow embedding of the ten request handlers of the profile router,
    and the properties of its field projector, its sub-list editor, its
    upsert and its error paths.

    - JavaScript strings are sequences of UTF-16 code units ([list N]).
    - JavaScript objects used as records with optional keys (the request
      body, [profileFields], a stored document) are [gmap string _].
    - The three collections ([Profile], [Post], [User]) are lists of
      documents in natural order; a handler is a computation in a state and
      exception monad over the [world] that holds them.
    - A private route is entered after the [auth] middleware: its handler
      is given the owner id that middleware left in [req.user.id]. *)

From Stdlib Require Import ZArith NArith Ascii String List Bool Lia.
From stdpp Require Import gmap strings list fin_maps.

Local Open Scope Z_scope.

(** ** JavaScript strings *)

Abbreviation jsstring := (list N).

(** A source literal, read as its code units. *)
Fixpoint js (s : string) : jsstring :=
  match s with
  | EmptyString => []
  | String a rest => N_of_ascii a :: js rest
  end.

Module JSString.

(** [if (s)] on a string: only the empty string is falsy. *)
Definition truthy (s : jsstring) : bool :=
  match s with [] => false | _ :: _ => true end.

(** WhiteSpace and LineTerminator code units, the ones [trim] strips. *)
Definition is_white_space (c : N) : bool :=
  ((9 <=? c) && (c <=? 13) || (c =? 32) || (c =? 160) || (c =? 5760)
   || (8192 <=? c) && (c <=? 8202) || (c =? 8232) || (c =? 8233)
   || (c =? 8239) || (c =? 8287) || (c =? 12288) || (c =? 65279))%N.

Fixpoint trimStart (s : jsstring) : jsstring :=
  match s with
  | [] => []
  | c :: rest => if is_white_space c then trimStart rest else s
  end.

Definition trimEnd (s : jsstring) : jsstring := reverse (trimStart (reverse s)).

(** [s.trim()] *)
Definition trim (s : jsstring) : jsstring := trimEnd (trimStart s).

(** [s.split(sep)] for a separator of one code unit: the substrings
    between the occurrences of [sep], all of them, empty ones too. *)
Fixpoint split (sep : N) (s : jsstring) : list jsstring :=
  match s with
  | [] => [[]]
  | c :: rest =>
      if (c =? sep)%N then [] :: split sep rest
      else match split sep rest with
           | tok :: toks => (c :: tok) :: toks
           | [] => [[c]]
           end
  end.

(** [toks.join(sep)] *)
Fixpoint join (sep : N) (toks : list jsstring) : jsstring :=
  match toks with
  | [] => []
  | [tok] => tok
  | tok :: rest => tok ++ sep :: join sep rest
  end.

End JSString.

(** ** JavaScript arrays *)

Module JSArray.
Section Array.
Context {A : Type}.

(** [a.indexOf(x)]: the index of the first element strictly equal to
    [x], or -1. *)
Fixpoint indexOf_from `{EqDecision A} (a : list A) (x : A) (i : Z) : Z :=
  match a with
  | [] => -1
  | y :: rest => if decide (y = x) then i else indexOf_from rest x (i + 1)
  end.

Definition indexOf `{EqDecision A} (a : list A) (x : A) : Z :=
  indexOf_from a x 0.

(** [a.splice(start, deleteCount)]: the array left behind.  A negative
    [start] counts from the end; both arguments are clamped to the
    array. *)
Definition splice (a : list A) (start deleteCount : Z) : list A :=
  let len := Z.of_nat (length a) in
  let actualStart :=
    if start <? 0 then Z.max (len + start) 0 else Z.min start len in
  let actualDeleteCount :=
    Z.min (Z.max deleteCount 0) (len - actualStart) in
  take (Z.to_nat actualStart) a
    ++ drop (Z.to_nat (actualStart + actualDeleteCount)) a.

(** [a.unshift(x)] *)
Definition unshift (a : list A) (x : A) : list A := x :: a.
End Array.
End JSArray.

(** ** Documents and collections *)

(** An embedded sub-document (an experience or an education entry): the
    [_id] Mongoose gives it and the fields copied from the request body.
    [item.id] is [sub_id]. *)
Record subdoc := Subdoc { sub_id : jsstring; sub_fields : gmap string jsstring }.

Inductive value :=
| VNull
| VStr (s : jsstring)
| VArr (a : list jsstring)
| VObj (o : gmap string jsstring)
| VSubdocs (a : list subdoc).

(** A stored document: its [_id] and its paths. *)
Record document := Doc { doc_id : jsstring; doc_fields : gmap string value }.

(** The three Mongoose models the router requires. *)
Inductive model := Profile | User | Post.

Inductive js_error :=
| CastError (kind : string)
| TypeError (message : string)
| ConfigError (property : string)
| SyntaxError (message : string)
| StoreError (message : string).

(** [err.kind]: Mongoose's cast errors carry one, other errors have none. *)
Definition kind (err : js_error) : option string :=
  match err with CastError k => Some k | _ => None end.

(** The server's state.  [faults] schedules the outcome of the coming store
    operations: [Some e] makes the next one throw [e], [None] (or an empty
    schedule) lets it complete.  [next_id] is the supply of fresh ObjectIds,
    [stderr] what [console.error] has printed, [outbound] the URIs of the
    requests sent to the repository-hosting service. *)
Record world := World {
  profiles : list document;
  users : list document;
  posts : list document;
  config : gmap string jsstring;
  faults : list (option js_error);
  next_id : N;
  stderr : list js_error;
  outbound : list jsstring
}.

Definition collection (m : model) (w : world) : list document :=
  match m with Profile => profiles w | User => users w | Post => posts w end.

Definition set_collection (m : model) (c : list document) (w : world) : world :=
  match m with
  | Profile => World c (users w) (posts w) (config w) (faults w) (next_id w) (stderr w) (outbound w)
  | User => World (profiles w) c (posts w) (config w) (faults w) (next_id w) (stderr w) (outbound w)
  | Post => World (profiles w) (users w) c (config w) (faults w) (next_id w) (stderr w) (outbound w)
  end.

Definition set_faults (f : list (option js_error)) (w : world) : world :=
  World (profiles w) (users w) (posts w) (config w) f (next_id w) (stderr w) (outbound w).

Definition set_next_id (n : N) (w : world) : world :=
  World (profiles w) (users w) (posts w) (config w) (faults w) n (stderr w) (outbound w).

Definition set_stderr (l : list js_error) (w : world) : world :=
  World (profiles w) (users w) (posts w) (config w) (faults w) (next_id w) l (outbound w).

Definition set_outbound (l : list jsstring) (w : world) : world :=
  World (profiles w) (users w) (posts w) (config w) (faults w) (next_id w) (stderr w) l.

(** ** Effects: state and exceptions *)

Inductive completion (A : Type) :=
| Normal (a : A)
| Throw (e : js_error).
Arguments Normal {A} a.
Arguments Throw {A} e.

Definition Eff (A : Type) : Type := world -> completion A * world.

Definition ret {A} (a : A) : Eff A := fun w => (Normal a, w).

Definition throw {A} (e : js_error) : Eff A := fun w => (Throw e, w).

Definition bind {A B} (m : Eff A) (k : A -> Eff B) : Eff B :=
  fun w => match m w with
           | (Normal a, w') => k a w'
           | (Throw e, w') => (Throw e, w')
           end.

(** [try { m } catch (err) { h err }] *)
Definition try_catch {A} (m : Eff A) (h : js_error -> Eff A) : Eff A :=
  fun w => match m w with
           | (Normal a, w') => (Normal a, w')
           | (Throw e, w') => h e w'
           end.

Notation "'let*' x ':=' m 'in' k" := (bind m (fun x => k))
  (at level 10, x name, m at level 100, k at level 200).

(** What the schedule holds for the next store operation, and the world
    once that operation has been started. *)
Definition next_fault (w : world) : option js_error :=
  match faults w with
  | Some e :: _ => Some e
  | _ => None
  end.

Definition advance (w : world) : world := set_faults (tail (faults w)) w.

(** An awaited store operation: it throws what the schedule says, or runs. *)
Definition store_call {A} (op : world -> A * world) : Eff A :=
  fun w => match next_fault w with
           | Some e => (Throw e, advance w)
           | None => let (a, w') := op (advance w) in (Normal a, w')
           end.

(** ** Mongoose *)

(** The strings Mongoose casts to an ObjectId: 24 hexadecimal digits, of
    either case, or any 12 characters (taken as the 12 bytes). *)
Definition is_hex_digit (c : N) : bool :=
  ((48 <=? c) && (c <=? 57) || (97 <=? c) && (c <=? 102) || (65 <=? c) && (c <=? 70))%N.

Definition is_object_id (s : jsstring) : bool :=
  (length s =? 24)%nat && forallb is_hex_digit s || (length s =? 12)%nat.

Definition hex_digit (d : N) : N := (if d <? 10 then 48 + d else 87 + d)%N.

Fixpoint hex_digits (k : nat) (n : N) (acc : jsstring) : jsstring :=
  match k with
  | O => acc
  | S k' => hex_digits k' (n / 16)%N (hex_digit (n mod 16)%N :: acc)
  end.

(** The [n]-th identifier of the supply. *)
Definition ObjectId (n : N) : jsstring := hex_digits 24 n [].

Definition fresh_id : Eff jsstring :=
  fun w => (Normal (ObjectId (next_id w)), set_next_id (N.succ (next_id w)) w).

(** Casting a query value to the ObjectId type of its path. *)
Definition cast_object_id (id : jsstring) : Eff unit :=
  if is_object_id id then ret tt else throw (CastError "ObjectId").

(** The ObjectId a raw string is cast to, as the text Mongoose renders it
    with (24 lower-case hexadecimal digits), which is how the identifiers
    and references of the stored documents are kept: the digits of a
    24-digit string in lower case, the bytes of a 12-character string in
    hexadecimal (a code unit above 255 by its low byte, as the driver
    writes it); no ObjectId for any other string. *)
Definition to_lower_hex (c : N) : N :=
  (if (65 <=? c) && (c <=? 70) then c + 32 else c)%N.

Definition byte_hex (c : N) : jsstring :=
  [hex_digit ((c mod 256) / 16)%N; hex_digit (c mod 16)%N].

Definition to_ObjectId (raw : jsstring) : option jsstring :=
  if (length raw =? 24)%nat && forallb is_hex_digit raw then Some (map to_lower_hex raw)
  else if (length raw =? 12)%nat then Some (flat_map byte_hex raw)
  else None.

(** The cast of a raw request parameter used in a filter: the ObjectId, or
    the cast error. *)
Definition cast_to_ObjectId (raw : jsstring) : Eff jsstring :=
  match to_ObjectId raw with
  | Some id => ret id
  | None => throw (CastError "ObjectId")
  end.

(** A filter [{ path: id }]; [_id] is the document's own identifier. *)
Definition matches (path : string) (id : jsstring) (d : document) : bool :=
  if String.eqb path "_id" then bool_decide (doc_id d = id)
  else match doc_fields d !! path with
       | Some (VStr s) => bool_decide (s = id)
       | _ => false
       end.

(** The first document that satisfies [p] rewritten by [f]; the collection
    afterwards and the rewritten document. *)
Fixpoint update_first (p : document -> bool) (f : document -> document)
    (c : list document) : list document * option document :=
  match c with
  | [] => ([], None)
  | d :: rest =>
      if p d then (f d :: rest, Some (f d))
      else let (rest', r) := update_first p f rest in (d :: rest', r)
  end.

Fixpoint remove_first (p : document -> bool) (c : list document) : list document :=
  match c with
  | [] => []
  | d :: rest => if p d then rest else d :: remove_first p rest
  end.

(** [{ $set: fields }]: every path of [fields] takes the value given,
    whole; the other paths stay. *)
Definition set_fields (fields : gmap string value) (d : document) : document :=
  Doc (doc_id d) (fields ∪ doc_fields d).

(** [populate('user', paths)]: the [user] reference replaced by the
    selected paths of the referenced account, or by null. *)
Definition select (paths : list string) (u : document) : gmap string jsstring :=
  foldr (fun k o => match doc_fields u !! k with
                    | Some (VStr s) => <[k := s]> o
                    | _ => o
                    end) {["_id" := doc_id u]} paths.

Definition populate (paths : list string) (accounts : list document)
    (d : document) : document :=
  match doc_fields d !! "user" with
  | Some (VStr uid) =>
      Doc (doc_id d)
        (<["user" := match find (matches "_id" uid) accounts with
                     | Some u => VObj (select paths u)
                     | None => VNull
                     end]> (doc_fields d))
  | _ => d
  end.

(** [await M.findOne({ path: id })] *)
Definition findOne (m : model) (path : string) (id : jsstring) : Eff (option document) :=
  let* _ := cast_object_id id in
  store_call (fun w => (find (matches path id) (collection m w), w)).

(** [await M.findOne({ path: id }).populate('user', paths)] *)
Definition findOne_populate (m : model) (path : string) (id : jsstring)
    (paths : list string) : Eff (option document) :=
  let* _ := cast_object_id id in
  store_call (fun w =>
    (populate paths (users w) <$> find (matches path id) (collection m w), w)).

(** [await M.find().populate('user', paths)] *)
Definition find_populate (m : model) (paths : list string) : Eff (list document) :=
  store_call (fun w => (map (populate paths (users w)) (collection m w), w)).

(** [await M.findOneAndUpdate({ path: id }, { $set: fields }, { new: true })] *)
Definition findOneAndUpdate (m : model) (path : string) (id : jsstring)
    (fields : gmap string value) : Eff (option document) :=
  let* _ := cast_object_id id in
  store_call (fun w =>
    let (c, r) := update_first (matches path id) (set_fields fields) (collection m w) in
    (r, set_collection m c w)).

(** [await M.findOneAndRemove({ path: id })] *)
Definition findOneAndRemove (m : model) (path : string) (id : jsstring) : Eff unit :=
  let* _ := cast_object_id id in
  store_call (fun w =>
    (tt, set_collection m (remove_first (matches path id) (collection m w)) w)).

(** [await M.deleteMany({ path: id })] *)
Definition deleteMany (m : model) (path : string) (id : jsstring) : Eff unit :=
  let* _ := cast_object_id id in
  store_call (fun w =>
    (tt, set_collection m (List.filter (fun d => negb (matches path id d)) (collection m w)) w)).

(** Modelled from the spec: the Profile schema ([models/Profile.js]), of
    which the router only uses that [experience] and [education] are
    ordered sequences of entries; Mongoose gives a document array that was
    never set the empty array. *)
Definition array_paths : list string := ["experience"; "education"].

(** [new M(fields)]: a document with a fresh [_id]. *)
Definition new_document (fields : gmap string value) : Eff document :=
  let* id := fresh_id in
  ret (Doc id (fields ∪ list_to_map (map (fun k => (k, VSubdocs [])) array_paths))).

(** [await doc.save()] of a new document: an insert, refused when the
    [_id] is taken. *)
Definition save_new (m : model) (d : document) : Eff unit :=
  let* dup := store_call (fun w =>
    if existsb (matches "_id" (doc_id d)) (collection m w) then (true, w)
    else (false, set_collection m (collection m w ++ [d]) w)) in
  if dup then throw (StoreError "E11000 duplicate key") else ret tt.

(** [await doc.save()] of a loaded document: the stored document of that
    [_id] takes the new paths. *)
Definition save (m : model) (d : document) : Eff unit :=
  store_call (fun w =>
    (tt, set_collection m
           (fst (update_first (matches "_id" (doc_id d)) (fun _ => d) (collection m w))) w)).

(** [doc.path] for a document array. *)
Definition subdocs (path : string) (d : document) : list subdoc :=
  match doc_fields d !! path with
  | Some (VSubdocs a) => a
  | _ => []
  end.

Definition set_subdocs (path : string) (a : list subdoc) (d : document) : document :=
  Doc (doc_id d) (<[path := VSubdocs a]> (doc_fields d)).

(** ** Requests, validation and responses *)

(** The parsed request body of a client that sends every field as a
    string (a form, or JSON whose values are strings); a field the client
    did not send has no key.  Bodies with other JSON values are not
    modelled: [skills] sent as an array, say, has no [split], and line 70
    of the upsert throws before its [try]. *)
Abbreviation body := (gmap string jsstring).

(** An entry of [validationResult(req).array()]. *)
Record validation_error := ValidationError { msg : jsstring; param : string }.

(** The validator of [check(field, message).not().isEmpty()] on the fields
    of one location: one error when the field is missing there or is the
    empty string.  On a request that carries fields in its body only it is
    the whole check; [check], below, runs it over the five locations. *)
Definition check_not_isEmpty (field : string) (message : jsstring) (b : body)
    : list validation_error :=
  match b !! field with
  | Some (_ :: _) => []
  | _ => [ValidationError message field]
  end.

(** The chains of a route, run in order, and the errors they collect. *)
Definition validationResult (checks : list (string * jsstring)) (b : body)
    : list validation_error :=
  flat_map (fun c => check_not_isEmpty (fst c) (snd c) b) checks.

Definition isEmpty {A} (errors : list A) : bool :=
  match errors with [] => true | _ :: _ => false end.

Inductive payload :=
| JNull
| JDocument (d : document)
| JDocuments (l : list document)
| JMsg (m : jsstring)
| JErrors (errors : list validation_error)
| JParsed (text : jsstring)
| Text (s : jsstring).

Record response := Response { statusCode : Z; sent : payload }.

(** [res.json(x)] *)
Definition res_json (x : payload) : Eff response := ret (Response 200 x).

(** [res.status(code).json(x)] and [res.status(code).send(text)] *)
Definition res_status (code : Z) (x : payload) : Eff response := ret (Response code x).

Definition json_document (d : option document) : payload :=
  match d with Some d => JDocument d | None => JNull end.

(** The methods of Node's [console]. *)
Definition console_methods : list string :=
  ["log"; "error"; "warn"; "info"; "debug"; "trace"; "dir"; "dirxml"; "table";
   "assert"; "count"; "countReset"; "group"; "groupCollapsed"; "groupEnd";
   "time"; "timeEnd"; "timeLog"].

(** [console.method(err)]: calling a property that [console] does not have
    is a TypeError. *)
Definition console (method : string) (err : js_error) : Eff unit :=
  if bool_decide (method ∈ console_methods)
  then fun w => (Normal tt, set_stderr (stderr w ++ [err]) w)
  else throw (TypeError ("console." ++ method ++ " is not a function")).

(** [config.get(property)] throws on a property that is not configured. *)
Definition config_get (property : string) : Eff jsstring :=
  fun w => match config w !! property with
           | Some v => (Normal v, w)
           | None => (Throw (ConfigError property), w)
           end.

(** ** The field projector of the upsert *)

(** The value of a destructured body field when [if (field)] passes. *)
Definition supplied (b : body) (field : string) : option jsstring :=
  match b !! field with
  | Some s => if JSString.truthy s then Some s else None
  | None => None
  end.

(** [if (x) o.key = x;] *)
Definition assign_if {V} (key : string) (x : option V) (o : gmap string V) : gmap string V :=
  match x with
  | Some v => <[key := v]> o
  | None => o
  end.

(** [skills.split(',').map(skill => skill.trim())] *)
Definition project_skills (skills : jsstring) : list jsstring :=
  map JSString.trim (JSString.split 44 skills).

Definition social_keys : list string :=
  ["youtube"; "facebook"; "twitter"; "instagram"; "linkedin"].

(** [profileFields.social] *)
Definition social_of (b : body) : gmap string jsstring :=
  assign_if "linkedin" (supplied b "linkedin")
    (assign_if "instagram" (supplied b "instagram")
      (assign_if "twitter" (supplied b "twitter")
        (assign_if "facebook" (supplied b "facebook")
          (assign_if "youtube" (supplied b "youtube") ∅)))).

(** [profileFields] *)
Definition profileFields (user_id : jsstring) (b : body) : gmap string value :=
  let o := <["user" := VStr user_id]> ∅ in
  let o := assign_if "company" (VStr <$> supplied b "company") o in
  let o := assign_if "website" (VStr <$> supplied b "website") o in
  let o := assign_if "location" (VStr <$> supplied b "location") o in
  let o := assign_if "bio" (VStr <$> supplied b "bio") o in
  let o := assign_if "status" (VStr <$> supplied b "status") o in
  let o := assign_if "githubusername" (VStr <$> supplied b "githubusername") o in
  let o := assign_if "skills" ((fun s => VArr (project_skills s)) <$> supplied b "skills") o in
  <["social" := VObj (social_of b)]> o.

(** ** The handlers *)

Definition server_error : Eff response :=
  res_status 500 (Text (js "Server Error")).

(** GET api/profile/me *)
Definition get_me (user_id : jsstring) : Eff response :=
  try_catch
    (let* profile := findOne_populate Profile "user" user_id ["name"; "avatar"] in
     match profile with
     | None => res_status 400 (JMsg (js "No profile for this user"))
     | Some profile => res_json (JDocument profile)
     end)
    (fun err => let* _ := console "error" err in server_error).

Definition post_profile_checks : list (string * jsstring) :=
  [("status", js "Status is Required"); ("skills", js "Skill is Required")].

(** POST api/profile *)
Definition post_profile (user_id : jsstring) (b : body) : Eff response :=
  let errors := validationResult post_profile_checks b in
  if negb (isEmpty errors) then res_status 400 (JErrors errors)
  else
    let fields := profileFields user_id b in
    try_catch
      (let* profile := findOne Profile "user" user_id in
       match profile with
       | Some _ =>
           let* profile := findOneAndUpdate Profile "user" user_id fields in
           res_json (json_document profile)
       | None =>
           let* profile := new_document fields in
           let* _ := save_new Profile profile in
           res_json (JDocument profile)
       end)
      (fun err => let* _ := console "error" err in server_error).

(** GET api/profile *)
Definition get_profiles : Eff response :=
  try_catch
    (let* profiles := find_populate Profile ["name"; "avatar"] in
     res_json (JDocuments profiles))
    (fun err => let* _ := console "err" err in server_error).

(** GET api/profile/user/:user_id.  The private routes are given the
    owner id as [auth] left it, the text of the account's ObjectId; here
    the id is the raw path parameter, any string, and the filter holds the
    ObjectId it is cast to, so that the case of its digits does not
    matter. *)
Definition get_profile_by_user (user_id : jsstring) : Eff response :=
  try_catch
    (let* owner := cast_to_ObjectId user_id in
     let* profile := findOne_populate Profile "user" owner ["name"; "avatar"] in
     match profile with
     | None => res_status 400 (JMsg (js "Profile not found"))
     | Some profile => res_json (JDocument profile)
     end)
    (fun err =>
       let* _ := console "error" err in
       if bool_decide (kind err = Some "ObjectId")
       then res_status 400 (JMsg (js "Profile not found"))
       else server_error).

(** DELETE api/profile *)
Definition delete_profile (user_id : jsstring) : Eff response :=
  try_catch
    (let* _ := deleteMany Post "user" user_id in
     let* _ := findOneAndRemove Profile "user" user_id in
     let* _ := findOneAndRemove User "_id" user_id in
     res_json (JMsg (js "User Deleted")))
    (fun err => let* _ := console "err" err in server_error).

(** The experience routes and the education routes are the same code up to
    the name of the list and the required fields. *)
Section SubList.
Variable path : string.
Variable checks : list (string * jsstring).

Definition null_profile : js_error :=
  TypeError ("Cannot read property '" ++ path ++ "' of null").

(** PUT api/profile/[path] *)
Definition put_entry (user_id : jsstring) (b : body) : Eff response :=
  try_catch
    (let errors := validationResult checks b in
     if negb (isEmpty errors) then res_status 400 (JErrors errors)
     else
       let newEntry := b in
       try_catch
         (let* profile := findOne Profile "user" user_id in
          match profile with
          | None => throw null_profile
          | Some profile =>
              let* id := fresh_id in
              let profile :=
                set_subdocs path
                  (JSArray.unshift (subdocs path profile) (Subdoc id newEntry)) profile in
              let* _ := save Profile profile in
              res_json (JDocument profile)
          end)
         (fun err => let* _ := console "error" err in server_error))
    (fun err => let* _ := console "err" err in server_error).

(** DELETE api/profile/[path]/:entry_id *)
Definition delete_entry (user_id entry_id : jsstring) : Eff response :=
  try_catch
    (let* profile := findOne Profile "user" user_id in
     match profile with
     | None => throw null_profile
     | Some profile =>
         let removeIndex :=
           JSArray.indexOf (map sub_id (subdocs path profile)) entry_id in
         let profile :=
           set_subdocs path (JSArray.splice (subdocs path profile) removeIndex 1) profile in
         let* _ := save Profile profile in
         res_json (JDocument profile)
     end)
    (fun err => let* _ := console "error" err in server_error).
End SubList.

Definition put_experience_checks : list (string * jsstring) :=
  [("title", js "Title is required"); ("company", js "Company is required");
   ("from", js "From Date is required")].

Definition put_education_checks : list (string * jsstring) :=
  [("school", js "School is required"); ("degree", js "Degree is required");
   ("from", js "From Date is required");
   ("fieldofstudy", js "Field of Study is required")].

(** PUT api/profile/experience *)
Definition put_experience : jsstring -> body -> Eff response :=
  put_entry "experience" put_experience_checks.

(** DELETE api/profile/experience/:exp_id *)
Definition delete_experience : jsstring -> jsstring -> Eff response :=
  delete_entry "experience".

(** PUT api/profile/education *)
Definition put_education : jsstring -> body -> Eff response :=
  put_entry "education" put_education_checks.

(** DELETE api/profile/education/:edu_id *)
Definition delete_education : jsstring -> jsstring -> Eff response :=
  delete_entry "education".

(** ** The proxy to the repository-hosting service *)

(** What the [request] library hands to its callback: an error and no
    response, or the response with its status and body. *)
Inductive upstream :=
| TransportError (error : js_error)
| Reply (status : Z) (text : jsstring).

(** The template literal of [options.uri], line break and indentation
    included. *)
Definition github_uri (username clientId clientSecret : jsstring) : jsstring :=
  js "https://api.github.com/users/" ++ username
    ++ js "/repos?per_page=5&sort=created: " ++ [10%N]
    ++ js "            asc&client_id=" ++ clientId
    ++ js "&client_secret" ++ clientSecret.

(** [request(options, callback)]: the request leaves. *)
Definition request (uri : jsstring) : Eff unit :=
  fun w => (Normal tt, set_outbound (outbound w ++ [uri]) w).

Section GitHub.
(** [JSON.parse] accepts the text or throws. *)
Variable JSON_well_formed : jsstring -> bool.

(** The callback runs after the handler has returned, outside its [try]. *)
Definition github_callback (up : upstream) : Eff response :=
  match up with
  | TransportError error =>
      let* _ := console "error" error in
      throw (TypeError "Cannot read property 'statusCode' of undefined")
  | Reply status text =>
      if negb (status =? 200) then res_status 404 (JMsg (js "No Github Profile found"))
      else if JSON_well_formed text then res_json (JParsed text)
      else throw (SyntaxError "Unexpected token in JSON")
  end.

(** GET api/profile/github/:username *)
Definition get_github (username : jsstring) (up : upstream) : Eff response :=
  let* early :=
    try_catch
      (let* clientId := config_get "githubClientId" in
       let* clientSecret := config_get "githubClientSecret" in
       let* _ := request (github_uri username clientId clientSecret) in
       ret None)
      (fun err => let* _ := console "error" err in
                  let* r := server_error in ret (Some r)) in
  match early with
  | Some r => ret r
  | None => github_callback up
  end.
End GitHub.

(** What the client of a handler sees: the response, or nothing because the
    handler ended on an exception nobody caught. *)
Inductive outcome :=
| Responded (r : response)
| Uncaught (e : js_error).

Definition run (h : Eff response) (w : world) : outcome * world :=
  match h w with
  | (Normal r, w') => (Responded r, w')
  | (Throw e, w') => (Uncaught e, w')
  end.

(** Requests served one after the other. *)
Fixpoint serve (hs : list (Eff response)) (w : world) : world :=
  match hs with
  | [] => w
  | h :: rest => serve rest (snd (run h w))
  end.

(** ** The skills tokenizer, as the specification words it *)

(** A run of white space. *)
Definition white (s : jsstring) : Prop :=
  Forall (fun c => JSString.is_white_space c = true) s.

(** No white space at either end. *)
Definition bare (s : jsstring) : Prop :=
  (forall c, head s = Some c -> JSString.is_white_space c = false)
  /\ (forall c, last s = Some c -> JSString.is_white_space c = false).

(** [t'] is [t] without its surrounding white space. *)
Definition trimmed_of (t t' : jsstring) : Prop :=
  exists pre post, t = pre ++ t' ++ post /\ white pre /\ white post /\ bare t'.

(** [toks] are the pieces of [s] between its commas, in order, the empty
    ones included. *)
Definition comma_tokens (s : jsstring) (toks : list jsstring) : Prop :=
  toks <> [] /\ JSString.join 44 toks = s /\ Forall (fun t => 44%N ∉ t) toks.

(** Every store operation still scheduled completes. *)
Definition calm (w : world) : Prop := Forall (fun f => f = None) (faults w).

(** At most one Profile of the collection belongs to [owner]. *)
Definition at_most_one (owner : jsstring) (c : list document) : Prop :=
  (length (List.filter (matches "user" owner) c) <= 1)%nat.

(** ** Reading the query of a URI *)

(** The part of [s] before the first [c], and the part after it if [c]
    occurs. *)
Fixpoint before (c : N) (s : jsstring) : jsstring :=
  match s with
  | [] => []
  | x :: rest => if (x =? c)%N then [] else x :: before c rest
  end.

Fixpoint after (c : N) (s : jsstring) : option jsstring :=
  match s with
  | [] => None
  | x :: rest => if (x =? c)%N then Some rest else after c rest
  end.

(** The query of a URI: what follows the first question mark, up to the
    number sign that starts the fragment; nothing when the number sign
    comes first. *)
Definition query_string (uri : jsstring) : jsstring :=
  default [] (after 63 (before 35 uri)).

(** [name=value], or a bare [name]. *)
Definition query_parameter (p : jsstring) : jsstring * option jsstring :=
  (before 61 p, after 61 p).

(** The parameters of the query, separated by ampersands. *)
Definition query_parameters (uri : jsstring) : list (jsstring * option jsstring) :=
  map query_parameter (JSString.split 38 (query_string uri)).

(** The worlds of the examples: one account and its profile with a YouTube
    link, the store answering or failing at the next operation. *)
Definition alice : jsstring := ObjectId 1.

Definition alice_profile : document :=
  Doc (ObjectId 2)
    (<["user" := VStr alice]>
      (<["status" := VStr (js "Developer")]>
        (<["skills" := VArr [js "js"]]>
          (<["social" := VObj {["youtube" := js "https://youtube.com/alice"]}]>
            (<["experience" := VSubdocs [Subdoc (ObjectId 3) {["title" := js "Intern"]};
                                         Subdoc (ObjectId 4) {["title" := js "Clerk"]}]]>
              (<["education" := VSubdocs []]> ∅)))))).

Definition alice_account : document :=
  Doc alice (<["name" := VStr (js "Alice")]> (<["avatar" := VStr (js "a.png")]> ∅)).

Definition empty_world : world := World [] [] [] ∅ [] 16 [] [].

Definition alice_world : world :=
  World [alice_profile] [alice_account] []
    (<["githubClientId" := js "ID"]> (<["githubClientSecret" := js "SECRET"]> ∅))
    [] 16 [] [].

Definition failing_store : world :=
  set_faults [Some (StoreError "connection lost")] alice_world.
(** A request body with the two required fields of the upsert and nothing
    else. *)
Definition status_and_skills : body :=
  <["status" := js "Developer"]> (<["skills" := js "js"]> ∅).

(** The social links of a stored Profile. *)
Definition social (d : document) : gmap string jsstring :=
  match doc_fields d !! "social" with
  | Some (VObj o) => o
  | _ => ∅
  end.

(** Two experience entries with their required fields. *)
Definition first_job : body :=
  <["title" := js "Engineer"]> (<["company" := js "Acme"]> (<["from" := js "2019-01-01"]> ∅)).

Definition second_job : body :=
  <["title" := js "Lead"]> (<["company" := js "Initech"]> (<["from" := js "2021-06-01"]> ∅)).

(** ** Vocabulary of the further properties *)

(** How many times the code unit [c] occurs in [s]. *)
Definition count_of (c : N) (s : jsstring) : nat :=
  length (List.filter (N.eqb c) s).

(** The documents of a collection that do not belong to [owner]. *)
Definition others (owner : jsstring) (c : list document) : list document :=
  List.filter (fun d => negb (matches "user" owner d)) c.

(** No two documents of the collection have the same [_id]. *)
Definition unique_ids (c : list document) : Prop := NoDup (map doc_id c).

(** The paths of [profileFields] that take a body field as it is. *)
Definition scalar_paths : list string :=
  ["company"; "website"; "location"; "bio"; "status"; "githubusername"].

(** The handler answers in every world, with 200, 400, or the one 500. *)
Definition always_answers (h : Eff response) : Prop :=
  forall w, exists r,
    fst (run h w) = Responded r
    /\ (statusCode r = 200 \/ statusCode r = 400
        \/ r = Response 500 (Text (js "Server Error"))).

(** The handler leaves the three collections as they are. *)
Definition read_only (h : Eff response) : Prop :=
  forall w,
    profiles (snd (run h w)) = profiles w
    /\ users (snd (run h w)) = users w
    /\ posts (snd (run h w)) = posts w.

(** A second account, with a Profile and two posts, beside Alice's. *)
Definition bob : jsstring := ObjectId 5.

Definition bob_profile : document :=
  Doc (ObjectId 6)
    (<["user" := VStr bob]>
      (<["status" := VStr (js "Student")]>
        (<["skills" := VArr [js "c"]]> ∅))).

Definition bob_account : document :=
  Doc bob (<["name" := VStr (js "Bob")]>
            (<["avatar" := VStr (js "b.png")]>
              (<["password" := VStr (js "$2a$10$hash")]> ∅))).

Definition post_by (id : N) (owner : jsstring) : document :=
  Doc (ObjectId id) (<["user" := VStr owner]> (<["text" := VStr (js "hello")]> ∅)).

Definition busy_world : world :=
  World [alice_profile; bob_profile] [alice_account; bob_account]
    [post_by 7 bob; post_by 8 alice; post_by 9 bob]
    (<["githubClientId" := js "ID"]> (<["githubClientSecret" := js "SECRET"]> ∅))
    [] 16 [] [].

(** The document [new Profile(fields)] makes under the identifier [id]. *)
Definition created (id : jsstring) (fields : gmap string value) : document :=
  Doc id (fields ∪ list_to_map (map (fun k => (k, VSubdocs [])) array_paths)).

(** Every path [profileFields] can hold. *)
Definition projected_paths : list string :=
  "user" :: "social" :: "skills" :: scalar_paths.

(** An upsert body that also carries keys the handler does not read. *)
Definition nosy_body : body :=
  <["experience" := js "none"]> (<["_id" := js "42"]> status_and_skills).

(** The store answering once and failing at the second operation. *)
Definition failing_midway : world :=
  set_faults [None; Some (StoreError "connection lost")] busy_world.

(** ** Requests with their five locations *)

(** express-validator's [check] looks a field up in the body, the cookies,
    the headers, the route parameters and the query of the request, in
    this order.  The fields of each location are strings. *)
Record req := Req {
  req_body : body;
  req_cookies : body;
  req_headers : body;
  req_params : body;
  req_query : body
}.

Definition locations (r : req) : list body :=
  [req_body r; req_cookies r; req_headers r; req_params r; req_query r].

(** [check(field, message).not().isEmpty()] on a request: the validator
    runs on the field in every location that has it, each of which has to
    pass, and once, on the body, when no location has it. *)
Definition check (field : string) (message : jsstring) (r : req)
    : list validation_error :=
  match List.filter (fun l => bool_decide (is_Some (l !! field))) (locations r) with
  | [] => check_not_isEmpty field message (req_body r)
  | having => flat_map (check_not_isEmpty field message) having
  end.

(** [validationResult(req).array()] for the chains of a route. *)
Definition validationResult_of (checks : list (string * jsstring)) (r : req)
    : list validation_error :=
  flat_map (fun c => check (fst c) (snd c) r) checks.

(** The [try] block of POST api/profile and its [catch], for the
    [profileFields] built before it. *)
Definition upsert (user_id : jsstring) (fields : gmap string value) : Eff response :=
  try_catch
    (let* profile := findOne Profile "user" user_id in
     match profile with
     | Some _ =>
         let* profile := findOneAndUpdate Profile "user" user_id fields in
         res_json (json_document profile)
     | None =>
         let* profile := new_document fields in
         let* _ := save_new Profile profile in
         res_json (JDocument profile)
     end)
    (fun err => let* _ := console "error" err in server_error).

(** POST api/profile on a request: the checks read every location, the
    handler reads the body. *)
Definition post_profile_request (user_id : jsstring) (r : req) : Eff response :=
  let errors := validationResult_of post_profile_checks r in
  if negb (isEmpty errors) then res_status 400 (JErrors errors)
  else upsert user_id (profileFields user_id (req_body r)).

(** The inner [try] block of PUT api/profile/[path] and its [catch]. *)
Definition add_entry (path : string) (user_id : jsstring) (newEntry : body)
    : Eff response :=
  try_catch
    (let* profile := findOne Profile "user" user_id in
     match profile with
     | None => throw (null_profile path)
     | Some profile =>
         let* id := fresh_id in
         let profile :=
           set_subdocs path
             (JSArray.unshift (subdocs path profile) (Subdoc id newEntry)) profile in
         let* _ := save Profile profile in
         res_json (JDocument profile)
     end)
    (fun err => let* _ := console "error" err in server_error).

(** PUT api/profile/[path] on a request. *)
Definition put_entry_request (path : string) (checks : list (string * jsstring))
    (user_id : jsstring) (r : req) : Eff response :=
  try_catch
    (let errors := validationResult_of checks r in
     if negb (isEmpty errors) then res_status 400 (JErrors errors)
     else add_entry path user_id (req_body r))
    (fun err => let* _ := console "err" err in server_error).

Definition put_experience_request : jsstring -> req -> Eff response :=
  put_entry_request "experience" put_experience_checks.

Definition put_education_request : jsstring -> req -> Eff response :=
  put_entry_request "education" put_education_checks.

(** A request that carries fields in its body only: the requests
    [post_profile] and [put_entry] are given. *)
Definition body_only (b : body) : req := Req b ∅ ∅ ∅ ∅.

(** The field is in no location of the request, or is empty in one. *)
Definition violated (field : string) (r : req) : Prop :=
  Forall (fun l : body => l !! field = None) (locations r)
  \/ Exists (fun l : body => l !! field = Some []) (locations r).

(** An education entry without degree, its school only in the query and
    an empty field of study in the body. *)
Definition incomplete_education : req :=
  Req (<["from" := js "2010-09-01"]> (<["fieldofstudy" := []]> ∅)) ∅ ∅ ∅
    (<["school" := js "MIT"]> ∅).

(** An upsert whose status comes in the query and whose skills in the
    body. *)
Definition status_in_query : req :=
  Req (<["skills" := js "js"]> ∅) ∅ ∅ ∅ (<["status" := js "Developer"]> ∅).

(** An upsert body that changes the status. *)
Definition promotion : body :=
  <["status" := js "Lead"]> (<["skills" := js "js,go"]> ∅).

(** A third account, whose identifier has letters among its digits. *)
Definition carol : jsstring := ObjectId 11259375.

Definition carol_profile : document :=
  Doc (ObjectId 10)
    (<["user" := VStr carol]>
      (<["status" := VStr (js "Designer")]> (<["skills" := VArr [js "css"]]> ∅))).

Definition carol_account : document :=
  Doc carol (<["name" := VStr (js "Carol")]>
              (<["avatar" := VStr (js "c.png")]>
                (<["password" := VStr (js "$2a$10$hash")]> ∅))).

Definition carol_world : world :=
  World [alice_profile; carol_profile] [alice_account; carol_account] []
    ∅ [] 16 [] [].

(** Carol's identifier as a client may write it, in upper case. *)
Definition CAROL : jsstring := js "000000000000000000ABCDEF".

(** * Properties *)

(** ** The library functions on small inputs *)

Example split_keeps_empty_tokens :
  JSString.split 44 (js "a,,b,") = [js "a"; []; js "b"; []].
Proof. reflexivity. Qed.

Example trim_strips_both_ends :
  JSString.trim (js "  full stack ") = js "full stack".
Proof. reflexivity. Qed.

Example indexOf_missing : JSArray.indexOf [js "a"; js "b"] (js "c") = -1.
Proof. reflexivity. Qed.

Example splice_negative_start : JSArray.splice [1; 2; 3] (-1) 1 = [1; 2].
Proof. reflexivity. Qed.

Example splice_first_match :
  JSArray.splice [1; 2; 3; 2] (JSArray.indexOf [1; 2; 3; 2] 2) 1 = [1; 3; 2].
Proof. reflexivity. Qed.

Example ObjectId_is_object_id : is_object_id (ObjectId 2024) = true.
Proof. reflexivity. Qed.

(** ** Strings *)

Lemma split_not_nil sep s : JSString.split sep s <> [].
Proof.
  destruct s as [|c rest]; simpl; [discriminate|].
  destruct (c =? sep)%N; [discriminate|].
  destruct (JSString.split sep rest); discriminate.
Qed.

Lemma join_cons_cons sep t u rest :
  JSString.join sep (t :: u :: rest) = t ++ sep :: JSString.join sep (u :: rest).
Proof. reflexivity. Qed.

Lemma join_split sep s : JSString.join sep (JSString.split sep s) = s.
Proof.
  induction s as [|c rest IH]; [reflexivity|].
  simpl JSString.split.
  destruct (N.eqb_spec c sep) as [->|Hne].
  - pose proof (split_not_nil sep rest) as Hnil.
    destruct (JSString.split sep rest) as [|u toks] eqn:E; [done|].
    rewrite join_cons_cons, IH. reflexivity.
  - pose proof (split_not_nil sep rest) as Hnil.
    destruct (JSString.split sep rest) as [|u toks] eqn:E; [done|].
    destruct toks as [|v toks'].
    + simpl in *. by rewrite IH.
    + rewrite join_cons_cons. rewrite join_cons_cons in IH.
      rewrite <- app_comm_cons. by rewrite IH.
Qed.

Lemma split_no_sep sep s : Forall (fun t => sep ∉ t) (JSString.split sep s).
Proof.
  induction s as [|c rest IH]; simpl.
  - constructor; [apply not_elem_of_nil | constructor].
  - destruct (N.eqb_spec c sep) as [->|Hne].
    + constructor; [apply not_elem_of_nil | exact IH].
    + destruct (JSString.split sep rest) as [|u toks].
      * constructor; [|constructor]. intros H%list_elem_of_singleton. congruence.
      * inversion IH as [|? ? Hu Htoks]; subst. constructor; [|exact Htoks].
        intros [H|H]%elem_of_cons; [congruence | by apply Hu].
Qed.

Lemma split_comma_tokens s : comma_tokens s (JSString.split 44 s).
Proof.
  split; [apply split_not_nil|]. split; [apply join_split | apply split_no_sep].
Qed.

Lemma trimStart_decompose s :
  exists pre, s = pre ++ JSString.trimStart s /\ white pre
    /\ (forall c, head (JSString.trimStart s) = Some c -> JSString.is_white_space c = false).
Proof.
  induction s as [|c rest (pre & Hs & Hpre & Hhd)]; simpl.
  - exists []. repeat split; [constructor | discriminate].
  - destruct (JSString.is_white_space c) eqn:Hc.
    + exists (c :: pre). repeat split.
      * simpl. by rewrite <- Hs.
      * by constructor.
      * exact Hhd.
    + exists []. repeat split; [constructor|]. simpl. intros c' [= <-]. exact Hc.
Qed.

Lemma trimStart_suffix_head s c :
  head (JSString.trimStart s) = Some c -> JSString.is_white_space c = false.
Proof. destruct (trimStart_decompose s) as (pre & _ & _ & H). apply H. Qed.

Lemma trim_trimmed_of t : trimmed_of t (JSString.trim t).
Proof.
  unfold JSString.trim, JSString.trimEnd.
  destruct (trimStart_decompose t) as (pre & Ht & Hpre & Hhd).
  set (t1 := JSString.trimStart t) in *.
  destruct (trimStart_decompose (reverse t1)) as (post & Hr & Hpost & Hlast).
  set (t2 := JSString.trimStart (reverse t1)) in *.
  assert (Ht1 : t1 = reverse t2 ++ reverse post).
  { rewrite <- reverse_app, <- Hr. by rewrite reverse_involutive. }
  exists pre, (reverse post). split; [|split; [exact Hpre|split]].
  - rewrite Ht at 1. by rewrite Ht1.
  - unfold white. by apply Forall_reverse.
  - split.
    + intros c Hc. apply Hhd. rewrite Ht1.
      destruct (reverse t2); [discriminate | exact Hc].
    + intros c Hc. apply Hlast. by rewrite last_reverse in Hc.
Qed.

(** ** Effects *)

Lemma store_call_ok {A} (op : world -> A * world) w :
  next_fault w = None ->
  store_call op w = (Normal (fst (op (advance w))), snd (op (advance w))).
Proof. intros H. unfold store_call. rewrite H. by destruct (op (advance w)). Qed.

Lemma store_call_fault {A} (op : world -> A * world) w e :
  next_fault w = Some e -> store_call op w = (Throw e, advance w).
Proof. intros H. unfold store_call. by rewrite H. Qed.

Lemma calm_next_fault w : calm w -> next_fault w = None.
Proof.
  unfold calm, next_fault. destruct (faults w) as [|[e|] rest]; try done.
  intros H. inversion H; subst. discriminate.
Qed.

Lemma calm_advance w : calm w -> calm (advance w).
Proof.
  unfold calm, advance. simpl. destruct (faults w); simpl; [done|].
  intros H. by inversion H.
Qed.

Lemma collection_advance m w : collection m (advance w) = collection m w.
Proof. by destruct m. Qed.

Lemma calm_set_collection m c w : calm w -> calm (set_collection m c w).
Proof. by destruct m. Qed.

Lemma calm_set_next_id n w : calm w -> calm (set_next_id n w).
Proof. done. Qed.

(** ** Validation *)

Lemma check_not_isEmpty_spec field message b :
  check_not_isEmpty field message b =
    match supplied b field with
    | Some _ => []
    | None => [ValidationError message field]
    end.
Proof.
  unfold check_not_isEmpty, supplied. by destruct (b !! field) as [[|c s]|].
Qed.

Lemma validationResult_complete checks b f :
  f ∈ map fst checks -> supplied b f = None ->
  exists e, e ∈ validationResult checks b /\ param e = f.
Proof.
  intros Hf Hnone. apply list_elem_of_fmap in Hf as ([f' m] & -> & Hin).
  exists (ValidationError m f'). split; [|done].
  unfold validationResult. apply list_elem_of_In, in_flat_map.
  exists (f', m). split; [by apply list_elem_of_In|].
  rewrite check_not_isEmpty_spec. simpl in *. rewrite Hnone. by left.
Qed.

Lemma validationResult_sound checks b e :
  e ∈ validationResult checks b ->
  (param e, msg e) ∈ checks /\ supplied b (param e) = None.
Proof.
  unfold validationResult. intros He. apply list_elem_of_In, in_flat_map in He.
  destruct He as ([f m] & Hin & He). rewrite check_not_isEmpty_spec in He.
  simpl in He. destruct (supplied b f) eqn:E; [done|].
  destruct He as [<-|[]]. simpl. split; [by apply list_elem_of_In | done].
Qed.

Lemma validationResult_nil checks b :
  validationResult checks b = [] <->
  (forall f, f ∈ map fst checks -> supplied b f <> None).
Proof.
  split.
  - intros Hnil f Hf Hnone.
    destruct (validationResult_complete checks b f Hf Hnone) as (e & He & _).
    rewrite Hnil in He. by apply elem_of_nil in He.
  - intros Hall. destruct (validationResult checks b) as [|e l] eqn:E; [done|].
    assert (He : e ∈ validationResult checks b) by (rewrite E; left).
    apply validationResult_sound in He as [Hin Hnone].
    exfalso. apply (Hall (param e)); [|done].
    apply list_elem_of_fmap. by exists (param e, msg e).
Qed.

Lemma rejected_post_profile u b w :
  validationResult post_profile_checks b <> [] ->
  run (post_profile u b) w
  = (Responded (Response 400 (JErrors (validationResult post_profile_checks b))), w).
Proof.
  intros H. unfold post_profile.
  destruct (validationResult post_profile_checks b); [done | reflexivity].
Qed.

Lemma rejected_put_entry path checks u b w :
  validationResult checks b <> [] ->
  run (put_entry path checks u b) w
  = (Responded (Response 400 (JErrors (validationResult checks b))), w).
Proof.
  intros H. unfold put_entry, run, try_catch.
  destruct (validationResult checks b); [done | reflexivity].
Qed.

(** ** Validation over the locations of a request *)

Lemma having_none field (ls : list body) :
  List.filter (fun l : body => bool_decide (is_Some (l !! field))) ls = []
  <-> Forall (fun l : body => l !! field = None) ls.
Proof.
  induction ls as [|l rest IH]; simpl; [split; [constructor | done]|].
  destruct (l !! field) as [s|] eqn:Hl.
  - rewrite bool_decide_eq_true_2 by eauto. split; [done|].
    intros H. inversion H; subst. congruence.
  - rewrite bool_decide_eq_false_2 by (by intros [? ?]). rewrite IH. split.
    + intros H. by constructor.
    + intros H. by inversion H.
Qed.

Lemma check_complete field message r :
  violated field r -> ValidationError message field ∈ check field message r.
Proof.
  unfold check. intros [Hnone|Hempty].
  - rewrite (proj2 (having_none field (locations r)) Hnone).
    unfold check_not_isEmpty. inversion Hnone as [|? ? Hbody _]; subst.
    rewrite Hbody. left.
  - apply Exists_exists in Hempty as (l & Hin & Hl).
    assert (Hhaving : l ∈ List.filter
              (fun l : body => bool_decide (is_Some (l !! field))) (locations r)).
    { apply list_elem_of_In, filter_In. split; [by apply list_elem_of_In|].
      apply bool_decide_eq_true. rewrite Hl. eauto. }
    destruct (List.filter _ (locations r)) as [|x xs] eqn:Hf;
      [by apply elem_of_nil in Hhaving|].
    apply list_elem_of_In, in_flat_map. exists l. split; [by apply list_elem_of_In|].
    unfold check_not_isEmpty. rewrite Hl. by left.
Qed.

Lemma check_sound field message r e :
  e ∈ check field message r -> e = ValidationError message field /\ violated field r.
Proof.
  unfold check.
  destruct (List.filter _ (locations r)) as [|x xs] eqn:Hf.
  - intros He. apply having_none in Hf. split; [|by left].
    unfold check_not_isEmpty in He. inversion Hf as [|? ? Hbody _]; subst.
    rewrite Hbody in He. by apply list_elem_of_singleton in He.
  - intros He. apply list_elem_of_In, in_flat_map in He as (l & Hl & He).
    rewrite <- Hf in Hl. apply filter_In in Hl as [Hin Hhas].
    unfold check_not_isEmpty in He.
    destruct (l !! field) as [[|c s]|] eqn:Hlf.
    + destruct He as [<-|[]]. split; [done|]. right.
      apply Exists_exists. exists l. split; [by apply list_elem_of_In | done].
    + destruct He.
    + apply bool_decide_eq_true in Hhas as [? ?]. congruence.
Qed.

Lemma validationResult_of_complete checks r f :
  f ∈ map fst checks -> violated f r ->
  exists e, e ∈ validationResult_of checks r /\ param e = f.
Proof.
  intros Hf Hv. apply list_elem_of_fmap in Hf as ([f' m] & -> & Hin).
  exists (ValidationError m f'). split; [|done].
  unfold validationResult_of. apply list_elem_of_In, in_flat_map.
  exists (f', m). split; [by apply list_elem_of_In|].
  apply list_elem_of_In. by apply check_complete.
Qed.

Lemma validationResult_of_sound checks r e :
  e ∈ validationResult_of checks r ->
  (param e, msg e) ∈ checks /\ violated (param e) r.
Proof.
  unfold validationResult_of. intros He. apply list_elem_of_In, in_flat_map in He.
  destruct He as ([f m] & Hin & He). apply list_elem_of_In, check_sound in He as [-> Hv].
  simpl in *. split; [by apply list_elem_of_In | done].
Qed.

Lemma validationResult_of_nil checks r :
  validationResult_of checks r = [] <->
  (forall f, f ∈ map fst checks -> ~ violated f r).
Proof.
  split.
  - intros Hnil f Hf Hv.
    destruct (validationResult_of_complete checks r f Hf Hv) as (e & He & _).
    rewrite Hnil in He. by apply elem_of_nil in He.
  - intros Hall. destruct (validationResult_of checks r) as [|e l] eqn:E; [done|].
    assert (He : e ∈ validationResult_of checks r) by (rewrite E; left).
    apply validationResult_of_sound in He as [Hin Hv].
    exfalso. apply (Hall (param e)); [|done].
    apply list_elem_of_fmap. by exists (param e, msg e).
Qed.

(** On a request with fields in the body only the check is the validator
    on the body, and the handlers on requests are the handlers on
    bodies. *)
Lemma check_body_only field message b :
  check field message (body_only b) = check_not_isEmpty field message b.
Proof.
  unfold check, body_only, locations. simpl.
  rewrite !lookup_empty.
  rewrite !(bool_decide_eq_false_2 (is_Some None)) by (by intros [? ?]).
  destruct (b !! field) as [s|] eqn:Hb.
  - rewrite bool_decide_eq_true_2 by eauto. simpl. apply app_nil_r.
  - by rewrite bool_decide_eq_false_2 by (by intros [? ?]).
Qed.

Lemma validationResult_of_body_only checks b :
  validationResult_of checks (body_only b) = validationResult checks b.
Proof.
  unfold validationResult_of, validationResult. induction checks as [|c rest IH]; [done|].
  simpl. by rewrite check_body_only, IH.
Qed.

Lemma post_profile_request_body_only u b :
  post_profile_request u (body_only b) = post_profile u b.
Proof.
  unfold post_profile_request, post_profile. by rewrite validationResult_of_body_only.
Qed.

Lemma put_entry_request_body_only path checks u b :
  put_entry_request path checks u (body_only b) = put_entry path checks u b.
Proof.
  unfold put_entry_request, put_entry. by rewrite validationResult_of_body_only.
Qed.

Lemma rejected_post_profile_request u r w :
  validationResult_of post_profile_checks r <> [] ->
  run (post_profile_request u r) w
  = (Responded (Response 400 (JErrors (validationResult_of post_profile_checks r))), w).
Proof.
  intros H. unfold post_profile_request.
  destruct (validationResult_of post_profile_checks r); [done | reflexivity].
Qed.

Lemma rejected_put_entry_request path checks u r w :
  validationResult_of checks r <> [] ->
  run (put_entry_request path checks u r) w
  = (Responded (Response 400 (JErrors (validationResult_of checks r))), w).
Proof.
  intros H. unfold put_entry_request, run, try_catch.
  destruct (validationResult_of checks r); [done | reflexivity].
Qed.

(** C8. An upsert, an experience add or an education add in whose request
    a required field is violated (no location of the request has it, or a
    location has it empty) answers 400 with an error for every violated
    required field (and only for those), and leaves the world, the stored
    profiles included, as it was. *)
Theorem validation_collects_every_violation
    (h : jsstring -> req -> Eff response) (checks : list (string * jsstring))
    (u : jsstring) (r : req) (w : world) :
  (h, checks) ∈ [(post_profile_request, post_profile_checks);
                 (put_experience_request, put_experience_checks);
                 (put_education_request, put_education_checks)] ->
  (exists f, f ∈ map fst checks /\ violated f r) ->
  exists errors,
    run (h u r) w = (Responded (Response 400 (JErrors errors)), w)
    /\ (forall f, f ∈ map fst checks -> violated f r ->
          exists e, e ∈ errors /\ param e = f)
    /\ (forall e, e ∈ errors ->
          (param e, msg e) ∈ checks /\ violated (param e) r).
Proof.
  intros Hh (f & Hf & Hv).
  assert (Hne : validationResult_of checks r <> []).
  { intros Hnil. rewrite validationResult_of_nil in Hnil. by apply (Hnil f). }
  exists (validationResult_of checks r). split; [|split].
  - repeat (apply elem_of_cons in Hh as [[= -> ->]|Hh]);
      [by apply rejected_post_profile_request | by apply rejected_put_entry_request
      | by apply rejected_put_entry_request | by apply elem_of_nil in Hh].
  - intros f' Hf' Hv'. by apply validationResult_of_complete.
  - intros e He. by apply validationResult_of_sound.
Qed.

Lemma validation_collects_every_violation_witness :
  exists errors,
    run (put_education_request alice incomplete_education) alice_world
    = (Responded (Response 400 (JErrors errors)), alice_world)
    /\ map param errors = ["degree"; "fieldofstudy"].
Proof.
  destruct (validation_collects_every_violation put_education_request put_education_checks
              alice incomplete_education alice_world)
    as (errors & Hrun & _ & _).
  - right. right. left.
  - exists "degree". split; [right; left|]. left. by repeat constructor.
  - exists errors. split; [exact Hrun|].
    vm_compute in Hrun. by injection Hrun as <-.
Defined.

(** A required field that only the query carries passes the checks: the
    upsert goes on with a body that has no status. *)
Example status_in_query_passes_the_checks :
  validationResult_of post_profile_checks status_in_query = []
  /\ exists d,
       fst (run (post_profile_request alice status_in_query) alice_world)
       = Responded (Response 200 (JDocument d))
       /\ doc_fields d !! "status" = Some (VStr (js "Developer"))
       /\ doc_fields d !! "skills" = Some (VArr [js "js"]).
Proof.
  split; [reflexivity|]. eexists. split; [vm_compute; reflexivity|].
  split; vm_compute; reflexivity.
Qed.

(** ** Lookups *)

Lemma findOne_populate_invalid m path id paths w :
  is_object_id id = false ->
  findOne_populate m path id paths w = (Throw (CastError "ObjectId"), w).
Proof.
  intros H. unfold findOne_populate, bind, cast_object_id. by rewrite H.
Qed.

Lemma findOne_populate_ok m path id paths w :
  is_object_id id = true -> next_fault w = None ->
  findOne_populate m path id paths w
  = (Normal (populate paths (users w) <$> find (matches path id) (collection m w)),
     advance w).
Proof.
  intros Hid Hf. unfold findOne_populate, bind, cast_object_id. rewrite Hid. simpl.
  rewrite store_call_ok by done. simpl. by rewrite collection_advance.
Qed.

Lemma console_error err w :
  console "error" err w = (Normal tt, set_stderr (stderr w ++ [err]) w).
Proof. reflexivity. Qed.

Lemma console_err err w :
  console "err" err w = (Throw (TypeError "console.err is not a function"), w).
Proof. reflexivity. Qed.

(** ** The cast of a raw identifier *)

Lemma to_lower_hex_is_hex c :
  is_hex_digit c = true -> is_hex_digit (to_lower_hex c) = true.
Proof.
  unfold to_lower_hex.
  destruct ((65 <=? c) && (c <=? 70))%N eqn:Hup; [|done].
  apply andb_true_iff in Hup as [H1%N.leb_le H2%N.leb_le]. intros _.
  unfold is_hex_digit.
  repeat match goal with
         | |- context [(?x <=? ?y)%N] => destruct (N.leb_spec x y)
         end; simpl; try done; lia.
Qed.

Lemma hex_digit_is_hex d : (d < 16)%N -> is_hex_digit (hex_digit d) = true.
Proof.
  intros Hd. unfold is_hex_digit, hex_digit. destruct (N.ltb_spec d 10);
    repeat match goal with
           | |- context [(?x <=? ?y)%N] => destruct (N.leb_spec x y)
           end; simpl; try done; lia.
Qed.

Lemma byte_hex_digits raw :
  length (flat_map byte_hex raw) = (2 * length raw)%nat
  /\ forallb is_hex_digit (flat_map byte_hex raw) = true.
Proof.
  induction raw as [|c rest [IHl IHh]]; [done|]. split.
  - simpl. rewrite IHl. lia.
  - cbn [flat_map byte_hex app forallb]. rewrite IHh.
    rewrite !hex_digit_is_hex; [done | |].
    + apply N.mod_upper_bound. lia.
    + apply N.Div0.div_lt_upper_bound. pose proof (N.mod_upper_bound c 256). lia.
Qed.

(** What a raw string is cast to is the text of an ObjectId. *)
Lemma to_ObjectId_is_object_id raw id :
  to_ObjectId raw = Some id -> is_object_id id = true.
Proof.
  unfold to_ObjectId, is_object_id.
  destruct ((length raw =? 24)%nat && forallb is_hex_digit raw) eqn:Hhex.
  - intros [= <-]. apply andb_true_iff in Hhex as [Hlen Hall].
    rewrite length_map, Hlen. simpl. apply orb_true_iff. left.
    rewrite forallb_forall in *. intros c Hc. apply in_map_iff in Hc as (c0 & <- & Hc0).
    by apply to_lower_hex_is_hex, Hall.
  - destruct (length raw =? 12)%nat eqn:Hlen; [|done]. intros [= <-].
    destruct (byte_hex_digits raw) as [Hl Hh]. rewrite Hl, Hh.
    apply Nat.eqb_eq in Hlen. by rewrite Hlen.
Qed.

Lemma get_profile_by_user_uncastable raw w :
  to_ObjectId raw = None ->
  run (get_profile_by_user raw) w
  = (Responded (Response 400 (JMsg (js "Profile not found"))),
     set_stderr (stderr w ++ [CastError "ObjectId"]) w).
Proof.
  intros Hcast. unfold get_profile_by_user, run, try_catch, bind, cast_to_ObjectId.
  by rewrite Hcast.
Qed.

Lemma get_profile_by_user_cast raw owner w :
  to_ObjectId raw = Some owner -> next_fault w = None ->
  fst (run (get_profile_by_user raw) w)
  = Responded
      match find (matches "user" owner) (profiles w) with
      | Some d => Response 200 (JDocument (populate ["name"; "avatar"] (users w) d))
      | None => Response 400 (JMsg (js "Profile not found"))
      end.
Proof.
  intros Hcast Hf. pose proof (to_ObjectId_is_object_id raw owner Hcast) as Hid.
  unfold get_profile_by_user, run, try_catch, bind, cast_to_ObjectId.
  rewrite Hcast. simpl. rewrite findOne_populate_ok by done. simpl.
  by destruct (find (matches "user" owner) (profiles w)).
Qed.

(** An identifier written in upper case finds the Profile of the ObjectId
    it is cast to. *)
Example upper_case_id_finds_the_profile :
  to_ObjectId CAROL = Some carol
  /\ fst (run (get_profile_by_user CAROL) carol_world)
     = fst (run (get_profile_by_user carol) carol_world)
  /\ exists seen,
       fst (run (get_profile_by_user CAROL) carol_world)
       = Responded (Response 200 (JDocument seen))
       /\ doc_id seen = doc_id carol_profile.
Proof.
  split; [reflexivity|]. split; [vm_compute; reflexivity|].
  eexists. split; vm_compute; reflexivity.
Qed.

(** C7. GET api/profile/user/:user_id answers 400 with the message
    "Profile not found", and not 500, both when the id is not a string
    Mongoose casts to an ObjectId (the lookup raises the cast error) and
    when the lookup completes and no Profile has the owner the id is cast
    to. *)
Theorem profile_by_user_not_found (user_id : jsstring) (w : world) :
  to_ObjectId user_id = None
  \/ (exists owner,
        to_ObjectId user_id = Some owner
        /\ next_fault w = None
        /\ find (matches "user" owner) (profiles w) = None) ->
  fst (run (get_profile_by_user user_id) w)
  = Responded (Response 400 (JMsg (js "Profile not found"))).
Proof.
  intros [Hbad|(owner & Hcast & Hok & Hnone)].
  - by rewrite get_profile_by_user_uncastable.
  - rewrite (get_profile_by_user_cast user_id owner) by done. by rewrite Hnone.
Qed.

Lemma profile_by_user_not_found_witness :
  fst (run (get_profile_by_user (js "not-an-object-id")) carol_world)
  = Responded (Response 400 (JMsg (js "Profile not found")))
  /\ fst (run (get_profile_by_user (js "000000000000000000ABCDEE")) carol_world)
     = Responded (Response 400 (JMsg (js "Profile not found")))
  /\ fst (run (get_profile_by_user (js "twelve chars")) carol_world)
     = Responded (Response 400 (JMsg (js "Profile not found"))).
Proof.
  split; [|split].
  - apply profile_by_user_not_found. left. reflexivity.
  - apply profile_by_user_not_found. right.
    exists (js "000000000000000000abcdee"). repeat split; reflexivity.
  - apply profile_by_user_not_found. right.
    exists (js "7477656c7665206368617273"). repeat split; reflexivity.
Defined.

(** The handlers whose catch block calls [console.err] never answer 500:
    whatever fails in them leaves uncaught. *)
Lemma get_profiles_never_answers_500 w r :
  fst (run get_profiles w) = Responded r -> statusCode r = 200.
Proof.
  unfold get_profiles, run, try_catch, bind, find_populate, store_call.
  destruct (next_fault w); simpl; [intros H; discriminate H|]. by intros [= <-].
Qed.

Lemma delete_profile_never_answers_500 u w r :
  fst (run (delete_profile u) w) = Responded r -> statusCode r = 200.
Proof.
  unfold delete_profile, deleteMany, findOneAndRemove, cast_object_id, store_call,
    run, try_catch, bind.
  destruct (is_object_id u); simpl; [|intros H; discriminate H].
  destruct (next_fault w); simpl; [intros H; discriminate H|].
  destruct (next_fault _); simpl; [intros H; discriminate H|].
  destruct (next_fault _); simpl; [intros H; discriminate H|]. by intros [= <-].
Qed.

(** C10. When the store fails, GET api/profile and DELETE api/profile do
    not answer 500: their handler for the failure calls [console.err],
    which [console] does not have, and the TypeError of that call leaves
    the handler uncaught.  GET api/profile/me, whose handler calls
    [console.error], answers 500 on the same failure. *)
Theorem store_failure_escapes_list_and_delete :
  fst (run get_profiles failing_store)
    = Uncaught (TypeError "console.err is not a function")
  /\ fst (run (delete_profile alice) failing_store)
    = Uncaught (TypeError "console.err is not a function")
  /\ fst (run (get_me alice) failing_store)
    = Responded (Response 500 (Text (js "Server Error"))).
Proof. repeat split; vm_compute; reflexivity. Qed.

Lemma get_profiles_store_failure w e :
  next_fault w = Some e ->
  fst (run get_profiles w) = Uncaught (TypeError "console.err is not a function").
Proof.
  intros H. unfold get_profiles, run, try_catch, bind, find_populate.
  by rewrite (store_call_fault _ _ e).
Qed.

(** ** The proxy *)

Lemma get_github_configured wf username up w clientId clientSecret :
  config w !! "githubClientId" = Some clientId ->
  config w !! "githubClientSecret" = Some clientSecret ->
  get_github wf username up w
  = github_callback wf up
      (set_outbound (outbound w ++ [github_uri username clientId clientSecret]) w).
Proof.
  intros Hid Hsecret.
  unfold get_github, bind, try_catch, config_get, request, ret.
  rewrite Hid, Hsecret. reflexivity.
Qed.

(** C9. The request the proxy sends for user [octocat] with client id [ID]
    and client secret [SECRET]: one request leaves, and an upstream status
    other than 200 is answered 404 with "No Github Profile found"; but its
    query has no [client_secret] parameter (the secret is glued to the
    name, the [=] is missing), and the value of [sort] runs over the line
    break and the indentation of the source. *)
Theorem github_query_drops_the_secret (wf : jsstring -> bool) :
  let uri := github_uri (js "octocat") (js "ID") (js "SECRET") in
  let after := run (get_github wf (js "octocat") (Reply 403 (js "{}"))) alice_world in
  outbound (snd after) = [uri]
  /\ fst after = Responded (Response 404 (JMsg (js "No Github Profile found")))
  /\ query_parameters uri
     = [(js "per_page", Some (js "5"));
        (js "sort", Some (js "created: " ++ [10%N] ++ js "            asc"));
        (js "client_id", Some (js "ID"));
        (js "client_secretSECRET", None)]
  /\ (forall v, (js "client_secret", v) ∉ query_parameters uri).
Proof.
  intros uri after. assert (Hq : query_parameters uri
     = [(js "per_page", Some (js "5"));
        (js "sort", Some (js "created: " ++ [10%N] ++ js "            asc"));
        (js "client_id", Some (js "ID"));
        (js "client_secretSECRET", None)]) by (vm_compute; reflexivity).
  split; [|split; [|split]].
  - subst after. unfold run.
    rewrite (get_github_configured wf _ _ _ (js "ID") (js "SECRET")) by reflexivity.
    reflexivity.
  - subst after. unfold run.
    rewrite (get_github_configured wf _ _ _ (js "ID") (js "SECRET")) by reflexivity.
    reflexivity.
  - exact Hq.
  - intros v. rewrite Hq. intros H.
    repeat (apply elem_of_cons in H as [H|H]; [by vm_compute in H|]).
    by apply elem_of_nil in H.
Qed.

(** ** The projector *)

Lemma lookup_assign_if_ne {V} key k (x : option V) (o : gmap string V) :
  key <> k -> assign_if key x o !! k = o !! k.
Proof. intros H. destruct x; simpl; [by rewrite lookup_insert_ne | done]. Qed.

Lemma lookup_assign_if_eq {V} key (x : option V) (o : gmap string V) :
  o !! key = None -> assign_if key x o !! key = x.
Proof. intros H. destruct x; simpl; [by rewrite lookup_insert_eq | done]. Qed.

Lemma lookup_assign_if_skip {V W} key k (f : W -> V) (x : string -> option W)
    (o : gmap string V) :
  x k = None -> assign_if key (f <$> x key) o !! k = o !! k.
Proof.
  intros H. destruct (decide (key = k)) as [->|Hne].
  - by rewrite H.
  - by apply lookup_assign_if_ne.
Qed.

Lemma profileFields_social u b :
  profileFields u b !! "social" = Some (VObj (social_of b)).
Proof. unfold profileFields. by rewrite lookup_insert_eq. Qed.

Lemma profileFields_user u b : profileFields u b !! "user" = Some (VStr u).
Proof.
  unfold profileFields. rewrite lookup_insert_ne by done.
  rewrite !lookup_assign_if_ne by done. by rewrite lookup_insert_eq.
Qed.

Lemma profileFields_skills u b :
  profileFields u b !! "skills"
  = (fun s => VArr (project_skills s)) <$> supplied b "skills".
Proof.
  unfold profileFields. rewrite lookup_insert_ne by done.
  rewrite lookup_assign_if_eq; [done|].
  rewrite !lookup_assign_if_ne by done. by rewrite lookup_insert_ne.
Qed.

Lemma profileFields_not_supplied u b k :
  k <> "social" -> k <> "user" -> supplied b k = None ->
  profileFields u b !! k = None.
Proof.
  intros Hsocial Huser Hnone. unfold profileFields.
  rewrite lookup_insert_ne by done.
  rewrite !(lookup_assign_if_skip _ k _ (supplied b)) by done.
  by rewrite lookup_insert_ne.
Qed.

Lemma social_of_supplied b k :
  k ∈ social_keys -> social_of b !! k = supplied b k.
Proof.
  intros Hk. unfold social_keys in Hk.
  repeat (apply elem_of_cons in Hk as [->|Hk]);
    [| | | | | by apply elem_of_nil in Hk];
    unfold social_of; rewrite ?lookup_assign_if_ne by done;
    rewrite lookup_assign_if_eq; try done;
    by rewrite ?lookup_assign_if_ne by done.
Qed.

Lemma social_of_other b k : k ∉ social_keys -> social_of b !! k = None.
Proof.
  intros Hk. unfold social_of.
  rewrite !lookup_assign_if_ne; [done | | | | |];
    intros <-; apply Hk; unfold social_keys; set_solver.
Qed.

Lemma split_without_sep sep t : sep ∉ t -> JSString.split sep t = [t].
Proof.
  induction t as [|c t IH]; intros Hsep; [reflexivity|]. simpl.
  destruct (N.eqb_spec c sep) as [->|Hne]; [exfalso; apply Hsep; left|].
  rewrite IH; [done|]. intros H. apply Hsep. by right.
Qed.

Lemma split_app_sep sep t rest :
  sep ∉ t -> JSString.split sep (t ++ sep :: rest) = t :: JSString.split sep rest.
Proof.
  induction t as [|c t IH]; intros Hsep; simpl.
  - by rewrite N.eqb_refl.
  - destruct (N.eqb_spec c sep) as [->|Hne]; [exfalso; apply Hsep; left|].
    rewrite IH; [done|]. intros H. apply Hsep. by right.
Qed.

Lemma comma_tokens_unique s toks : comma_tokens s toks -> toks = JSString.split 44 s.
Proof.
  intros (Hne & <- & Hall). induction toks as [|t rest IH]; [done|].
  inversion Hall as [|? ? Ht Hrest]; subst.
  destruct rest as [|u rest'].
  - simpl. by rewrite split_without_sep.
  - rewrite join_cons_cons, split_app_sep by done. f_equal. by apply IH.
Qed.

Lemma trimStart_white pre s :
  white pre -> JSString.trimStart (pre ++ s) = JSString.trimStart s.
Proof.
  induction 1 as [|c pre Hc _ IH]; [done|]. simpl. by rewrite Hc.
Qed.

Lemma trimStart_all_white s : white s -> JSString.trimStart s = [].
Proof.
  intros H. rewrite <- (app_nil_r s). by rewrite trimStart_white.
Qed.

Lemma trimStart_bare s :
  (forall c, head s = Some c -> JSString.is_white_space c = false) ->
  JSString.trimStart s = s.
Proof. destruct s as [|c s]; [done|]. intros H. simpl. by rewrite (H c). Qed.

Lemma trimmed_of_unique t t' : trimmed_of t t' -> t' = JSString.trim t.
Proof.
  intros (pre & post & -> & Hpre & Hpost & Hhd & Hlast).
  unfold JSString.trim, JSString.trimEnd. rewrite trimStart_white by done.
  destruct t' as [|c t''].
  - rewrite app_nil_l, (trimStart_all_white post) by done. reflexivity.
  - rewrite (trimStart_bare ((c :: t'') ++ post)) by (intros c' [= <-]; by apply Hhd).
    rewrite reverse_app, (trimStart_white (reverse post)) by (by apply Forall_reverse).
    rewrite (trimStart_bare (reverse (c :: t''))); [by rewrite reverse_involutive|].
    intros c'. rewrite head_reverse. apply Hlast.
Qed.

Lemma Forall2_trimmed_of toks projected :
  Forall2 trimmed_of toks projected -> projected = map JSString.trim toks.
Proof.
  induction 1 as [|t t' toks projected Ht _ IH]; [done|].
  simpl. by rewrite <- IH, <- (trimmed_of_unique t t').
Qed.

(** C4. With a non-empty skills string in the body, [profileFields.skills]
    is the list of the pieces of that string between its commas (in order,
    empty pieces kept), each without its surrounding white space, and no
    other list is; the string "a, b ,c" gives ["a", "b", "c"]. *)
Theorem skills_are_split_and_trimmed (u : jsstring) (b : body) (skills : jsstring) :
  b !! "skills" = Some skills -> skills <> [] ->
  exists toks projected,
    profileFields u b !! "skills" = Some (VArr projected)
    /\ comma_tokens skills toks
    /\ Forall2 trimmed_of toks projected
    /\ (forall toks' projected',
          comma_tokens skills toks' -> Forall2 trimmed_of toks' projected' ->
          projected' = projected)
    /\ (skills = js "a, b ,c" -> projected = [js "a"; js "b"; js "c"]).
Proof.
  intros Hb Hne.
  exists (JSString.split 44 skills), (project_skills skills).
  split; [|split; [|split; [|split]]].
  - rewrite profileFields_skills. unfold supplied. rewrite Hb.
    by destruct skills.
  - apply split_comma_tokens.
  - unfold project_skills. apply Forall2_fmap_r, Forall_Forall2_diag.
    apply Forall_forall. intros t _. apply trim_trimmed_of.
  - intros toks' projected' ->%comma_tokens_unique ->%Forall2_trimmed_of.
    reflexivity.
  - intros ->. reflexivity.
Qed.

Lemma skills_are_split_and_trimmed_witness :
  profileFields alice (<["skills" := js "a, b ,c"]> ∅) !! "skills"
  = Some (VArr [js "a"; js "b"; js "c"]).
Proof.
  destruct (skills_are_split_and_trimmed alice (<["skills" := js "a, b ,c"]> ∅)
              (js "a, b ,c")) as (toks & projected & Hp & _ & _ & _ & Hex).
  - reflexivity.
  - discriminate.
  - rewrite Hp, Hex; reflexivity.
Defined.

(** ** Collections *)

Lemma update_first_found p f c d :
  find p c = Some d -> snd (update_first p f c) = Some (f d).
Proof.
  induction c as [|x rest IH]; simpl; [done|].
  destruct (p x); [by intros [= ->]|].
  intros H. destruct (update_first p f rest). simpl in *. by apply IH.
Qed.

Lemma update_first_absent p f c : find p c = None -> update_first p f c = (c, None).
Proof.
  induction c as [|x rest IH]; simpl; [done|].
  destruct (p x); [done|]. intros H. by rewrite IH.
Qed.

Lemma update_first_length p f c : length (fst (update_first p f c)) = length c.
Proof.
  induction c as [|x rest IH]; simpl; [done|].
  destruct (p x); [done|]. destruct (update_first p f rest). simpl in *. by rewrite IH.
Qed.

Lemma find_update_first p f c d :
  find p c = Some d -> p (f d) = true ->
  find p (fst (update_first p f c)) = Some (f d).
Proof.
  intros Hfind Hp. induction c as [|x rest IH]; simpl in *; [done|].
  destruct (p x) eqn:Hpx.
  - injection Hfind as ->. simpl. by rewrite Hp.
  - destruct (update_first p f rest). simpl in *. rewrite Hpx. by apply IH.
Qed.

(** Saving [d'] over the stored [d]: the first answer to [p], which [d] was,
    is now [d']. *)
Lemma find_replace_first p q c d d' :
  find p c = Some d -> q d = true -> p d' = true ->
  find p (fst (update_first q (fun _ => d') c)) = Some d'.
Proof.
  intros Hfind Hq Hp. induction c as [|x rest IH]; simpl in *; [done|].
  destruct (q x) eqn:Hqx.
  - simpl. by rewrite Hp.
  - destruct (p x) eqn:Hpx.
    + injection Hfind as ->. congruence.
    + destruct (update_first q (fun _ => d') rest). simpl in *. rewrite Hpx.
      by apply IH.
Qed.

Lemma find_Some_holds {A} (p : A -> bool) c d : find p c = Some d -> p d = true.
Proof. intros H. by apply find_some in H as [_ H]. Qed.

Lemma filter_update_first (p q : document -> bool) f c :
  (forall d, p d = true -> q (f d) = q d) ->
  length (List.filter q (fst (update_first p f c))) = length (List.filter q c).
Proof.
  intros Hf. induction c as [|x rest IH]; simpl; [done|].
  destruct (p x) eqn:Hpx.
  - simpl. rewrite (Hf x Hpx). by destruct (q x).
  - destruct (update_first p f rest). simpl in *. destruct (q x); simpl; by rewrite IH.
Qed.

Lemma filter_find_None {A} (p : A -> bool) c : find p c = None -> List.filter p c = [].
Proof.
  induction c as [|x rest IH]; simpl; [done|]. destruct (p x); [done | exact IH].
Qed.

Lemma matches_user_inv owner d :
  matches "user" owner d = true -> doc_fields d !! "user" = Some (VStr owner).
Proof.
  unfold matches. simpl. destruct (doc_fields d !! "user") as [[]|]; try done.
  intros H%bool_decide_eq_true. by subst.
Qed.

Lemma matches_user_intro owner d :
  doc_fields d !! "user" = Some (VStr owner) -> matches "user" owner d = true.
Proof. unfold matches. simpl. intros ->. by apply bool_decide_eq_true. Qed.

Lemma matches_id_self d : matches "_id" (doc_id d) d = true.
Proof. unfold matches. simpl. by apply bool_decide_eq_true. Qed.

Lemma matches_user_set_fields owner u b d :
  matches "user" u d = true ->
  matches "user" owner (set_fields (profileFields u b) d) = matches "user" owner d.
Proof.
  intros Hd%matches_user_inv. unfold matches. simpl.
  rewrite lookup_union_l' by (rewrite profileFields_user; eauto).
  by rewrite profileFields_user, Hd.
Qed.

Lemma findOne_invalid m path id w :
  is_object_id id = false -> findOne m path id w = (Throw (CastError "ObjectId"), w).
Proof. intros H. unfold findOne, bind, cast_object_id. by rewrite H. Qed.

Lemma findOne_fault m path id w e :
  is_object_id id = true -> next_fault w = Some e ->
  findOne m path id w = (Throw e, advance w).
Proof.
  intros Hid Hf. unfold findOne, bind, cast_object_id. rewrite Hid. simpl.
  by rewrite (store_call_fault _ _ e).
Qed.

Lemma findOne_ok m path id w :
  is_object_id id = true -> next_fault w = None ->
  findOne m path id w = (Normal (find (matches path id) (collection m w)), advance w).
Proof.
  intros Hid Hf. unfold findOne, bind, cast_object_id. rewrite Hid. simpl.
  rewrite store_call_ok by done. simpl. by rewrite collection_advance.
Qed.

(** ** The upsert *)

(** What an upsert can do to the Profile collection: nothing, rewrite the
    owner's first Profile, or append a Profile for an owner who had none. *)
Lemma post_profile_profiles u b w :
  let c := profiles w in
  let c' := profiles (snd (run (post_profile u b) w)) in
  c' = c
  \/ (exists d, find (matches "user" u) c = Some d
        /\ c' = fst (update_first (matches "user" u) (set_fields (profileFields u b)) c))
  \/ (find (matches "user" u) c = None
        /\ exists d, doc_fields d !! "user" = Some (VStr u) /\ c' = c ++ [d]).
Proof.
  intros c c'. subst c c'. unfold post_profile.
  destruct (validationResult post_profile_checks b); simpl; [|by left].
  unfold run, try_catch, bind.
  destruct (is_object_id u) eqn:Hid; [|rewrite findOne_invalid by done; by left].
  destruct (next_fault w) as [e|] eqn:Hf;
    [rewrite (findOne_fault _ _ _ _ e) by done; by left|].
  rewrite findOne_ok by done. simpl.
  destruct (find (matches "user" u) (profiles w)) as [d|] eqn:Hfind.
  - unfold findOneAndUpdate, bind, cast_object_id. rewrite Hid. simpl.
    unfold store_call.
    destruct (next_fault (advance w)) as [e|] eqn:Hf2; [by left|].
    simpl. destruct (update_first _ _ (profiles w)) as [c' r] eqn:Hup. simpl.
    right. left. by exists d.
  - unfold new_document, save_new, bind, fresh_id, ret, store_call. simpl.
    destruct (next_fault (set_next_id _ (advance w))) as [e|] eqn:Hf2; [by left|]. simpl.
    destruct (existsb _ (profiles w)); simpl; [by left|].
    right. right. split; [done|]. eexists. split; [|reflexivity]. simpl.
    rewrite lookup_union_l' by (rewrite profileFields_user; eauto).
    apply profileFields_user.
Qed.

Lemma post_profile_at_most_one owner u b w :
  at_most_one owner (profiles w) ->
  at_most_one owner (profiles (snd (run (post_profile u b) w))).
Proof.
  intros Hone.
  destruct (post_profile_profiles u b w) as [->|[(d & Hfind & ->)|(Hnone & d & Hd & ->)]].
  - exact Hone.
  - unfold at_most_one. rewrite filter_update_first; [exact Hone|].
    intros x Hx. by apply matches_user_set_fields.
  - unfold at_most_one in *. rewrite List.filter_app, length_app. simpl.
    destruct (matches "user" owner d) eqn:Hm; simpl; [|lia].
    apply matches_user_inv in Hm. rewrite Hd in Hm. injection Hm as <-.
    by rewrite (filter_find_None _ _ Hnone).
Qed.

Lemma post_profile_existing_length u b w :
  is_Some (find (matches "user" u) (profiles w)) ->
  length (profiles (snd (run (post_profile u b) w))) = length (profiles w).
Proof.
  intros [d0 Hd0].
  destruct (post_profile_profiles u b w) as [->|[(d & Hfind & ->)|(Hnone & _)]].
  - reflexivity.
  - apply update_first_length.
  - congruence.
Qed.

Lemma upserts_at_most_one owner (reqs : list (jsstring * body)) w :
  at_most_one owner (profiles w) ->
  at_most_one owner
    (profiles (serve (map (fun r => post_profile (fst r) (snd r)) reqs) w)).
Proof.
  revert w. induction reqs as [|[u b] reqs IH]; intros w Hone; [exact Hone|].
  simpl. apply IH. by apply post_profile_at_most_one.
Qed.

(** Starting from a collection without Profiles, no sequence of upserts
    gives an owner two. *)
Lemma upserts_from_no_profiles owner (reqs : list (jsstring * body)) w :
  profiles w = [] ->
  at_most_one owner
    (profiles (serve (map (fun r => post_profile (fst r) (snd r)) reqs) w)).
Proof.
  intros Hempty. apply upserts_at_most_one. unfold at_most_one.
  rewrite Hempty. simpl. lia.
Qed.

Lemma update_first_in_place p f c d :
  find p c = Some d ->
  exists before rest,
    c = before ++ d :: rest
    /\ Forall (fun x => p x = false) before
    /\ fst (update_first p f c) = before ++ f d :: rest.
Proof.
  induction c as [|x tail IH]; simpl; [done|].
  destruct (p x) eqn:Hx.
  - intros [= ->]. exists [], tail. by repeat split.
  - intros Hfind. destruct (IH Hfind) as (before & rest & -> & Hbefore & Hup).
    destruct (update_first p f (before ++ d :: rest)). simpl in *. subst.
    exists (x :: before), rest. repeat split; [by constructor].
Qed.

(** An upsert that does not answer 200 has written nothing. *)
Lemma post_profile_not_200 u b w :
  (forall p, fst (run (post_profile u b) w) <> Responded (Response 200 p)) ->
  profiles (snd (run (post_profile u b) w)) = profiles w.
Proof.
  unfold post_profile.
  destruct (validationResult post_profile_checks b); simpl; [|done].
  unfold run, try_catch, bind.
  destruct (is_object_id u) eqn:Hid; [|by rewrite findOne_invalid by done].
  destruct (next_fault w) as [e|] eqn:Hf;
    [by rewrite (findOne_fault _ _ _ _ e) by done|].
  rewrite findOne_ok by done. simpl.
  destruct (find (matches "user" u) (profiles w)) as [d|] eqn:Hfind.
  - unfold findOneAndUpdate, bind, cast_object_id. rewrite Hid. simpl.
    unfold store_call.
    destruct (next_fault (advance w)) as [e|] eqn:Hf2; [done|].
    simpl. destruct (update_first _ _ (profiles w)) as [c' r]. simpl.
    intros H. by destruct (H (json_document r)).
  - unfold new_document, save_new, bind, fresh_id, ret, store_call. simpl.
    destruct (next_fault (set_next_id _ (advance w))) as [e|] eqn:Hf2; [done|].
    simpl. destruct (existsb _ (profiles w)); simpl; [done|].
    intros H. by edestruct H.
Qed.

(** An upsert that answers 200 for an owner who has a Profile has
    rewritten that Profile where it stood. *)
Lemma post_profile_updates_in_place u b w d p :
  find (matches "user" u) (profiles w) = Some d ->
  fst (run (post_profile u b) w) = Responded (Response 200 p) ->
  exists before rest d',
    profiles w = before ++ d :: rest
    /\ Forall (fun x => matches "user" u x = false) before
    /\ profiles (snd (run (post_profile u b) w)) = before ++ d' :: rest
    /\ p = JDocument d'
    /\ doc_id d' = doc_id d
    /\ (forall k v, profileFields u b !! k = Some v -> doc_fields d' !! k = Some v)
    /\ (forall k, profileFields u b !! k = None -> doc_fields d' !! k = doc_fields d !! k).
Proof.
  intros Hfind. unfold post_profile.
  destruct (validationResult post_profile_checks b); simpl;
    [|intros H; discriminate H].
  unfold run, try_catch, bind.
  destruct (is_object_id u) eqn:Hid;
    [|rewrite findOne_invalid by done; intros H; discriminate H].
  destruct (next_fault w) as [e|] eqn:Hf;
    [rewrite (findOne_fault _ _ _ _ e) by done; intros H; discriminate H|].
  rewrite findOne_ok by done. simpl. rewrite Hfind.
  unfold findOneAndUpdate, bind, cast_object_id. rewrite Hid. simpl.
  unfold store_call.
  destruct (next_fault (advance w)) as [e|] eqn:Hf2; [intros H; discriminate H|].
  simpl.
  pose proof (update_first_found (matches "user" u) (set_fields (profileFields u b))
                _ _ Hfind) as Hsnd.
  destruct (update_first_in_place (matches "user" u) (set_fields (profileFields u b))
              _ _ Hfind) as (before & rest & Hc & Hbefore & Hup).
  destruct (update_first _ _ (profiles w)) as [c' r]. simpl in *. subst r c'.
  intros [= <-]. exists before, rest, (set_fields (profileFields u b) d).
  repeat split; try done.
  - intros k v Hk. simpl. by apply lookup_union_Some_l.
  - intros k Hk. simpl. by apply lookup_union_r.
Qed.

(** C6. Upserts served one after the other never bring the Profile
    collection from at most one Profile of an owner to two: the number of
    Profiles of every owner stays at most one.  An upsert for an owner who
    has a Profile creates no record and updates the one there is: when it
    answers 200 the collection is the one before with that Profile, where
    it stood and under the same [_id], now holding every path projected
    from the request with the projected value and its other paths as they
    were; when it does not answer 200 the collection is as it was. *)
Theorem upserts_keep_one_profile_per_owner
    (reqs : list (jsstring * body)) (w : world) (owner : jsstring) :
  at_most_one owner (profiles w) ->
  at_most_one owner (profiles (serve (map (fun r => post_profile (fst r) (snd r)) reqs) w))
  /\ (forall u b d,
        find (matches "user" u) (profiles w) = Some d ->
        length (profiles (snd (run (post_profile u b) w))) = length (profiles w)
        /\ (forall p,
              fst (run (post_profile u b) w) = Responded (Response 200 p) ->
              exists before rest d',
                profiles w = before ++ d :: rest
                /\ Forall (fun x => matches "user" u x = false) before
                /\ profiles (snd (run (post_profile u b) w)) = before ++ d' :: rest
                /\ p = JDocument d'
                /\ doc_id d' = doc_id d
                /\ (forall k v, profileFields u b !! k = Some v ->
                      doc_fields d' !! k = Some v)
                /\ (forall k, profileFields u b !! k = None ->
                      doc_fields d' !! k = doc_fields d !! k))
        /\ ((forall p, fst (run (post_profile u b) w) <> Responded (Response 200 p)) ->
            profiles (snd (run (post_profile u b) w)) = profiles w)).
Proof.
  intros Hone. split; [by apply upserts_at_most_one|].
  intros u b d Hfind. split; [apply post_profile_existing_length; eauto|].
  split; [intros p; by apply post_profile_updates_in_place|].
  apply post_profile_not_200.
Qed.

Lemma upserts_keep_one_profile_per_owner_witness :
  at_most_one alice
    (profiles (serve (map (fun r => post_profile (fst r) (snd r)) [(alice, promotion)])
                 alice_world))
  /\ exists d',
       profiles (snd (run (post_profile alice promotion) alice_world)) = [d']
       /\ doc_id d' = doc_id alice_profile
       /\ doc_fields d' !! "status" = Some (VStr (js "Lead"))
       /\ doc_fields d' !! "experience" = doc_fields alice_profile !! "experience".
Proof.
  destruct (upserts_keep_one_profile_per_owner [(alice, promotion)] alice_world alice)
    as [Hone Hupdate].
  - unfold at_most_one. vm_compute. lia.
  - split; [exact Hone|].
    assert (find (matches "user" alice) (profiles alice_world) = Some alice_profile)
      as Hfind by (vm_compute; reflexivity).
    destruct (Hupdate alice promotion alice_profile Hfind) as (_ & H200 & _).
    destruct (H200 (JDocument (set_fields (profileFields alice promotion) alice_profile)))
      as (before & rest & d' & Hc & _ & Hafter & _ & Hid & Hnew & Hold).
    + vm_compute. reflexivity.
    + exists d'. split; [|split; [exact Hid|split]].
      * rewrite Hafter. apply (f_equal length) in Hc.
        rewrite length_app in Hc. simpl in Hc.
        destruct before, rest; simpl in Hc; try lia. reflexivity.
      * apply Hnew. reflexivity.
      * apply Hold. reflexivity.
Defined.

Lemma post_profile_update u b w d :
  validationResult post_profile_checks b = [] ->
  is_object_id u = true -> calm w ->
  find (matches "user" u) (profiles w) = Some d ->
  run (post_profile u b) w
  = (Responded (Response 200 (JDocument (set_fields (profileFields u b) d))),
     set_collection Profile
       (fst (update_first (matches "user" u) (set_fields (profileFields u b)) (profiles w)))
       (advance (advance w))).
Proof.
  intros Hval Hid Hcalm Hfind. unfold post_profile. rewrite Hval. simpl.
  unfold run, try_catch, bind.
  rewrite findOne_ok by (done || by apply calm_next_fault). simpl. rewrite Hfind.
  unfold findOneAndUpdate, bind, cast_object_id. rewrite Hid. simpl.
  rewrite store_call_ok by (by apply calm_next_fault, calm_advance).
  simpl.
  pose proof (update_first_found (matches "user" u) (set_fields (profileFields u b))
                _ _ Hfind) as Hsnd.
  destruct (update_first _ _ (profiles w)) as [c' r]. simpl in *. by subst r.
Qed.

(** C1, as the code has it.  An upsert for an owner who has a Profile
    answers with the updated Profile, which is the one stored; every path
    of it other than [social] for which the body supplied no (non-empty)
    value is as it was; [social] is replaced by the object built from the
    request, which holds the links the body supplied and no others. *)
Theorem upsert_keeps_unsupplied_paths_and_replaces_social
    (u : jsstring) (b : body) (w : world) (d : document) :
  is_object_id u = true -> calm w ->
  supplied b "status" <> None -> supplied b "skills" <> None ->
  find (matches "user" u) (profiles w) = Some d ->
  exists d',
    fst (run (post_profile u b) w) = Responded (Response 200 (JDocument d'))
    /\ find (matches "user" u) (profiles (snd (run (post_profile u b) w))) = Some d'
    /\ doc_id d' = doc_id d
    /\ (forall k, k <> "social" -> supplied b k = None ->
          doc_fields d' !! k = doc_fields d !! k)
    /\ social d' = social_of b
    /\ (forall k, k ∈ social_keys -> social d' !! k = supplied b k)
    /\ (forall k, k ∉ social_keys -> social d' !! k = None).
Proof.
  intros Hid Hcalm Hstatus Hskills Hfind.
  assert (Hval : validationResult post_profile_checks b = []).
  { apply validationResult_nil. intros f Hf. simpl in Hf.
    repeat (apply elem_of_cons in Hf as [->|Hf]); try done.
    by apply elem_of_nil in Hf. }
  pose proof (find_Some_holds _ _ _ Hfind) as Hmatch.
  assert (Hsocial : social (set_fields (profileFields u b) d) = social_of b).
  { unfold social. simpl.
    rewrite lookup_union_l' by (rewrite profileFields_social; eauto).
    by rewrite profileFields_social. }
  exists (set_fields (profileFields u b) d).
  rewrite (post_profile_update u b w d) by done. simpl.
  split; [done|]. split; [|split; [done|split; [|split; [done|split]]]].
  - apply find_update_first; [done|]. by rewrite matches_user_set_fields.
  - intros k Hk Hnone. simpl. destruct (decide (k = "user")) as [->|Huser].
    + rewrite lookup_union_l' by (rewrite profileFields_user; eauto).
      rewrite profileFields_user. symmetry. by apply matches_user_inv.
    + rewrite lookup_union_r; [done|]. by apply profileFields_not_supplied.
  - intros k Hk. rewrite Hsocial. by apply social_of_supplied.
  - intros k Hk. rewrite Hsocial. by apply social_of_other.
Qed.

Lemma upsert_keeps_unsupplied_paths_and_replaces_social_witness :
  exists d',
    fst (run (post_profile alice status_and_skills) alice_world)
    = Responded (Response 200 (JDocument d'))
    /\ doc_fields d' !! "experience" = doc_fields alice_profile !! "experience"
    /\ social d' = social_of status_and_skills.
Proof.
  destruct (upsert_keeps_unsupplied_paths_and_replaces_social
              alice status_and_skills alice_world alice_profile)
    as (d' & Hrun & _ & _ & Hframe & Hsocial & _).
  - reflexivity.
  - constructor.
  - by vm_compute.
  - by vm_compute.
  - reflexivity.
  - exists d'. split; [exact Hrun|]. split; [|exact Hsocial].
    apply Hframe; [discriminate | reflexivity].
Defined.

(** C1 as the specification words it does not hold: Alice's Profile stores a YouTube link,
    her upsert supplies none, and the updated Profile has lost it. *)
Lemma upsert_drops_unsupplied_social_link :
  let after := run (post_profile alice status_and_skills) alice_world in
  find (matches "user" alice) (profiles alice_world) = Some alice_profile
  /\ supplied status_and_skills "youtube" = None
  /\ social alice_profile !! "youtube" = Some (js "https://youtube.com/alice")
  /\ exists d',
       fst after = Responded (Response 200 (JDocument d'))
       /\ find (matches "user" alice) (profiles (snd after)) = Some d'
       /\ social d' !! "youtube" = None.
Proof.
  split; [reflexivity|]. split; [reflexivity|]. split; [reflexivity|].
  eexists. split; [vm_compute; reflexivity|]. split; vm_compute; reflexivity.
Qed.

(** ** Arrays *)

Lemma indexOf_from_cons {A} `{EqDecision A} (y : A) rest x i :
  JSArray.indexOf_from (y :: rest) x i
  = if decide (y = x) then i else JSArray.indexOf_from rest x (i + 1).
Proof. reflexivity. Qed.

Lemma indexOf_from_first_match {A} (f : A -> jsstring) (a : list A) target :
  target ∈ map f a ->
  exists before x after,
    a = before ++ x :: after /\ f x = target /\ (target ∉ map f before)
    /\ forall i, JSArray.indexOf_from (map f a) target i = i + Z.of_nat (length before).
Proof.
  induction a as [|y rest IH]; intros Hin; [by apply elem_of_nil in Hin|].
  destruct (decide (f y = target)) as [Hy|Hy].
  - exists [], y, rest. repeat split; [done | apply not_elem_of_nil |].
    intros i. cbn [map]. rewrite indexOf_from_cons, decide_True by done. simpl. lia.
  - cbn [map] in Hin. apply elem_of_cons in Hin as [Hin|Hin]; [congruence|].
    destruct (IH Hin) as (before & x & after & -> & Hx & Hbefore & Hidx).
    exists (y :: before), x, after. repeat split; [done | |].
    + cbn [map]. intros H. apply elem_of_cons in H as [H|H]; [congruence | done].
    + intros i. cbn [map]. rewrite indexOf_from_cons, decide_False by done.
      rewrite Hidx. simpl length. lia.
Qed.

Lemma indexOf_from_no_match {A} `{EqDecision A} (a : list A) x i :
  x ∉ a -> JSArray.indexOf_from a x i = -1.
Proof.
  revert i. induction a as [|y rest IH]; intros i Hx; [done|].
  rewrite indexOf_from_cons, decide_False by (intros ->; apply Hx; left).
  apply IH. intros H. apply Hx. by right.
Qed.

Lemma splice_one_at {A} (before after : list A) x :
  JSArray.splice (before ++ x :: after) (Z.of_nat (length before)) 1 = before ++ after.
Proof.
  unfold JSArray.splice. rewrite length_app. simpl length.
  destruct (Z.ltb_spec (Z.of_nat (length before)) 0) as [?|_]; [lia|].
  rewrite Z.min_l by lia. rewrite (Z.max_l 1 0) by lia. rewrite (Z.min_l 1) by lia.
  rewrite Nat2Z.id.
  replace (Z.to_nat (Z.of_nat (length before) + 1)) with (S (length before)) by lia.
  rewrite take_app_length.
  replace (S (length before)) with (length (before ++ [x])) by (rewrite length_app; simpl; lia).
  rewrite (cons_middle x before after), app_assoc. by rewrite drop_app_length.
Qed.

Lemma splice_last {A} (init : list A) x :
  JSArray.splice (init ++ [x]) (-1) 1 = init.
Proof.
  unfold JSArray.splice. rewrite length_app. simpl length.
  change (-1 <? 0) with true. cbv iota.
  rewrite Z.max_l by lia. rewrite (Z.max_l 1 0) by lia. rewrite Z.min_l by lia.
  replace (Z.to_nat (Z.of_nat (length init + 1) + -1)) with (length init) by lia.
  replace (Z.to_nat (Z.of_nat (length init + 1) + -1 + 1)) with (length (init ++ [x]))
    by (rewrite length_app; simpl; lia).
  rewrite take_app_length, drop_all. apply app_nil_r.
Qed.

(** ** Documents *)

Lemma subdocs_set_subdocs path a d : subdocs path (set_subdocs path a d) = a.
Proof. unfold subdocs, set_subdocs. simpl. by rewrite lookup_insert_eq. Qed.

Lemma lookup_set_subdocs path a d k :
  k <> path -> doc_fields (set_subdocs path a d) !! k = doc_fields d !! k.
Proof. intros H. unfold set_subdocs. simpl. by rewrite lookup_insert_ne. Qed.

Lemma matches_user_set_subdocs path a d u :
  path <> "user" -> matches "user" u (set_subdocs path a d) = matches "user" u d.
Proof. intros H. unfold matches. simpl. by rewrite lookup_insert_ne. Qed.

(** What [save] leaves: the owner's Profile, read again, is the saved one. *)
Lemma find_after_save path a d u c :
  path <> "user" -> find (matches "user" u) c = Some d ->
  find (matches "user" u)
    (fst (update_first (matches "_id" (doc_id d)) (fun _ => set_subdocs path a d) c))
  = Some (set_subdocs path a d).
Proof.
  intros Hpath Hfind. apply (find_replace_first _ _ _ d); [done | apply matches_id_self |].
  rewrite matches_user_set_subdocs by done. by apply find_Some_holds in Hfind.
Qed.

(** ** The sub-list editor *)

Lemma delete_entry_ok path u target w d :
  is_object_id u = true -> calm w ->
  find (matches "user" u) (profiles w) = Some d ->
  let d' := set_subdocs path
              (JSArray.splice (subdocs path d)
                 (JSArray.indexOf (map sub_id (subdocs path d)) target) 1) d in
  run (delete_entry path u target) w
  = (Responded (Response 200 (JDocument d')),
     set_collection Profile
       (fst (update_first (matches "_id" (doc_id d)) (fun _ => d') (profiles w)))
       (advance (advance w))).
Proof.
  intros Hid Hcalm Hfind d'. unfold delete_entry, run, try_catch, bind.
  rewrite findOne_ok by (done || by apply calm_next_fault). simpl. rewrite Hfind.
  unfold save. rewrite store_call_ok by (by apply calm_next_fault, calm_advance).
  reflexivity.
Qed.

Lemma put_entry_ok path checks u b w d :
  validationResult checks b = [] ->
  is_object_id u = true -> calm w ->
  find (matches "user" u) (profiles w) = Some d ->
  let d' := set_subdocs path (Subdoc (ObjectId (next_id w)) b :: subdocs path d) d in
  run (put_entry path checks u b) w
  = (Responded (Response 200 (JDocument d')),
     set_collection Profile
       (fst (update_first (matches "_id" (doc_id d)) (fun _ => d') (profiles w)))
       (advance (set_next_id (N.succ (next_id w)) (advance w)))).
Proof.
  intros Hval Hid Hcalm Hfind d'. unfold put_entry. rewrite Hval. simpl.
  unfold run, try_catch, bind.
  rewrite findOne_ok by (done || by apply calm_next_fault). simpl. rewrite Hfind.
  unfold fresh_id, save.
  rewrite store_call_ok
    by (by apply calm_next_fault, calm_set_next_id, calm_advance).
  reflexivity.
Qed.

(** An add that answers 200 has loaded the owner's Profile and put the new
    entry, with a fresh identifier, before the entries it found. *)
Lemma put_entry_200 path checks u b w p :
  path <> "user" ->
  fst (run (put_entry path checks u b) w) = Responded (Response 200 p) ->
  exists d,
    find (matches "user" u) (profiles w) = Some d
    /\ let d' := set_subdocs path (Subdoc (ObjectId (next_id w)) b :: subdocs path d) d in
       p = JDocument d'
       /\ find (matches "user" u) (profiles (snd (run (put_entry path checks u b) w)))
          = Some d'.
Proof.
  intros Hpath. unfold put_entry.
  destruct (validationResult checks b); simpl; [|unfold run, try_catch; simpl; done].
  unfold run, try_catch, bind.
  destruct (is_object_id u) eqn:Hid; [|rewrite findOne_invalid by done; done].
  destruct (next_fault w) as [e|] eqn:Hf;
    [rewrite (findOne_fault _ _ _ _ e) by done; done|].
  rewrite findOne_ok by done. simpl.
  destruct (find (matches "user" u) (profiles w)) as [d|] eqn:Hfind; [|done].
  unfold fresh_id, save, store_call. simpl.
  destruct (next_fault (set_next_id _ (advance w))) as [e|] eqn:Hf2; [done|].
  simpl. intros [= <-]. exists d. split; [done|]. split; [done|].
  by apply find_after_save.
Qed.

Lemma sublist_path_not_user {H : Type} (h : H) (path : string) (hx hy : H) :
  (h, path) ∈ [(hx, "experience"); (hy, "education")] -> path <> "user".
Proof.
  intros Hh. repeat (apply elem_of_cons in Hh as [[= -> ->]|Hh]); try done.
  by apply elem_of_nil in Hh.
Qed.

Lemma delete_handler_is_delete_entry h path :
  (h, path) ∈ [(delete_experience, "experience"); (delete_education, "education")] ->
  h = delete_entry path.
Proof.
  intros Hh. repeat (apply elem_of_cons in Hh as [[= -> ->]|Hh]); try done.
  by apply elem_of_nil in Hh.
Qed.

(** C2. DELETE api/profile/experience/:exp_id and DELETE
    api/profile/education/:edu_id, when the list of the owner's Profile has
    an entry with the target identifier: the list is cut at the first such
    entry, which goes; the entries before it and after it stay, in their
    order; the other paths of the Profile stay; the Profile so changed is
    answered and is the one stored. *)
Theorem delete_removes_first_matching_entry
    (h : jsstring -> jsstring -> Eff response) (path : string)
    (u target : jsstring) (w : world) (d : document) :
  (h, path) ∈ [(delete_experience, "experience"); (delete_education, "education")] ->
  is_object_id u = true -> calm w ->
  find (matches "user" u) (profiles w) = Some d ->
  target ∈ map sub_id (subdocs path d) ->
  exists before x after d',
    subdocs path d = before ++ x :: after
    /\ sub_id x = target
    /\ (target ∉ map sub_id before)
    /\ fst (run (h u target) w) = Responded (Response 200 (JDocument d'))
    /\ find (matches "user" u) (profiles (snd (run (h u target) w))) = Some d'
    /\ subdocs path d' = before ++ after
    /\ (forall k, k <> path -> doc_fields d' !! k = doc_fields d !! k).
Proof.
  intros Hh Hid Hcalm Hfind Htarget.
  pose proof (sublist_path_not_user _ _ _ _ Hh) as Hpath.
  rewrite (delete_handler_is_delete_entry _ _ Hh).
  destruct (indexOf_from_first_match sub_id _ _ Htarget)
    as (before & x & after & Hl & Hx & Hbefore & Hidx).
  assert (Hsplice : JSArray.splice (subdocs path d)
            (JSArray.indexOf (map sub_id (subdocs path d)) target) 1 = before ++ after).
  { unfold JSArray.indexOf. rewrite Hidx, Z.add_0_l, Hl. apply splice_one_at. }
  exists before, x, after, (set_subdocs path (before ++ after) d).
  split; [exact Hl|]. split; [exact Hx|]. split; [exact Hbefore|].
  rewrite (delete_entry_ok path u target w d) by done. cbv zeta. rewrite Hsplice.
  split; [reflexivity|]. split; [by apply find_after_save|].
  split; [apply subdocs_set_subdocs|].
  intros k Hk. by apply lookup_set_subdocs.
Qed.

Lemma delete_removes_first_matching_entry_witness :
  exists d',
    fst (run (delete_experience alice (ObjectId 3)) alice_world)
    = Responded (Response 200 (JDocument d'))
    /\ subdocs "experience" d' = [Subdoc (ObjectId 4) {["title" := js "Clerk"]}].
Proof.
  destruct (delete_removes_first_matching_entry delete_experience "experience"
              alice (ObjectId 3) alice_world alice_profile)
    as (before & x & after & d' & Hl & _ & _ & Hrun & _ & Hsub & _).
  - left.
  - reflexivity.
  - constructor.
  - reflexivity.
  - left.
  - exists d'. split; [exact Hrun|].
    vm_compute in Hrun. injection Hrun as <-. reflexivity.
Defined.

(** C3. The same routes when the list is not empty and has no entry with
    the target identifier: [indexOf] gives -1, [splice(-1, 1)] takes the
    last entry away, and the request is answered 200 with the Profile so
    changed, which is the one stored. *)
Theorem delete_without_match_removes_last_entry
    (h : jsstring -> jsstring -> Eff response) (path : string)
    (u target : jsstring) (w : world) (d : document) :
  (h, path) ∈ [(delete_experience, "experience"); (delete_education, "education")] ->
  is_object_id u = true -> calm w ->
  find (matches "user" u) (profiles w) = Some d ->
  subdocs path d <> [] ->
  target ∉ map sub_id (subdocs path d) ->
  exists init last d',
    subdocs path d = init ++ [last]
    /\ fst (run (h u target) w) = Responded (Response 200 (JDocument d'))
    /\ find (matches "user" u) (profiles (snd (run (h u target) w))) = Some d'
    /\ subdocs path d' = init
    /\ (forall k, k <> path -> doc_fields d' !! k = doc_fields d !! k).
Proof.
  intros Hh Hid Hcalm Hfind Hne Htarget.
  pose proof (sublist_path_not_user _ _ _ _ Hh) as Hpath.
  rewrite (delete_handler_is_delete_entry _ _ Hh).
  destruct (exists_last Hne) as (init & last & Hl).
  assert (Hsplice : JSArray.splice (subdocs path d)
            (JSArray.indexOf (map sub_id (subdocs path d)) target) 1 = init).
  { unfold JSArray.indexOf. rewrite indexOf_from_no_match by done.
    rewrite Hl. apply splice_last. }
  exists init, last, (set_subdocs path init d). split; [exact Hl|].
  rewrite (delete_entry_ok path u target w d) by done. cbv zeta. rewrite Hsplice.
  split; [reflexivity|]. split; [by apply find_after_save|].
  split; [apply subdocs_set_subdocs|].
  intros k Hk. by apply lookup_set_subdocs.
Qed.

Lemma delete_without_match_removes_last_entry_witness :
  exists d',
    fst (run (delete_experience alice (ObjectId 9)) alice_world)
    = Responded (Response 200 (JDocument d'))
    /\ subdocs "experience" d' = [Subdoc (ObjectId 3) {["title" := js "Intern"]}].
Proof.
  destruct (delete_without_match_removes_last_entry delete_experience "experience"
              alice (ObjectId 9) alice_world alice_profile)
    as (init & last & d' & Hl & Hrun & _ & Hsub & _).
  - left.
  - reflexivity.
  - constructor.
  - reflexivity.
  - discriminate.
  - intros H. vm_compute in H.
    repeat (apply elem_of_cons in H as [H|H]; [discriminate|]).
    by apply elem_of_nil in H.
  - exists d'. split; [exact Hrun|].
    vm_compute in Hrun. injection Hrun as <-. reflexivity.
Defined.

Lemma put_entries_in_reverse path checks u bodies :
  path <> "user" -> is_object_id u = true ->
  Forall (fun b => validationResult checks b = []) bodies ->
  forall w d,
    calm w -> find (matches "user" u) (profiles w) = Some d ->
    exists d',
      find (matches "user" u) (profiles (serve (map (put_entry path checks u) bodies) w))
      = Some d'
      /\ map sub_fields (subdocs path d')
         = reverse bodies ++ map sub_fields (subdocs path d).
Proof.
  intros Hpath Hid. induction 1 as [|b bodies Hb _ IH]; intros w d Hcalm Hfind.
  - exists d. by split.
  - cbn [map serve]. rewrite (put_entry_ok path checks u b w d) by done.
    cbv zeta. cbn [snd].
    set (d1 := set_subdocs path (Subdoc (ObjectId (next_id w)) b :: subdocs path d) d).
    destruct (IH (set_collection Profile
                    (fst (update_first (matches "_id" (doc_id d)) (fun _ => d1) (profiles w)))
                    (advance (set_next_id (N.succ (next_id w)) (advance w)))) d1)
      as (d' & Hfind' & Hlist).
    + by apply calm_set_collection, calm_advance, calm_set_next_id, calm_advance.
    + by apply find_after_save.
    + exists d'. split; [exact Hfind'|]. rewrite Hlist. subst d1.
      rewrite subdocs_set_subdocs, reverse_cons. cbn [map sub_fields].
      by rewrite <- app_assoc.
Qed.

Lemma put_handler_is_put_entry h path checks :
  (h, (path, checks)) ∈ [(put_experience, ("experience", put_experience_checks));
                          (put_education, ("education", put_education_checks))] ->
  h = put_entry path checks /\ path <> "user".
Proof.
  intros Hh. repeat (apply elem_of_cons in Hh as [[= -> -> ->]|Hh]); try done.
  by apply elem_of_nil in Hh.
Qed.

(** C5. PUT api/profile/experience and PUT api/profile/education: an add
    that answers 200 answers, and has stored, the owner's Profile with the
    new entry (the body under a fresh identifier) put before the entries
    that were there, which keep their order; so after the adds of
    [bodies], served in that order, the list holds them last first, before
    the entries it had. *)
Theorem add_puts_new_entry_first
    (h : jsstring -> body -> Eff response) (path : string)
    (checks : list (string * jsstring)) (u : jsstring) :
  (h, (path, checks)) ∈ [(put_experience, ("experience", put_experience_checks));
                          (put_education, ("education", put_education_checks))] ->
  (forall b w p,
     fst (run (h u b) w) = Responded (Response 200 p) ->
     exists d id,
       find (matches "user" u) (profiles w) = Some d
       /\ p = JDocument (set_subdocs path (Subdoc id b :: subdocs path d) d)
       /\ find (matches "user" u) (profiles (snd (run (h u b) w)))
          = Some (set_subdocs path (Subdoc id b :: subdocs path d) d))
  /\ (forall bodies w d,
        is_object_id u = true -> calm w ->
        find (matches "user" u) (profiles w) = Some d ->
        Forall (fun b => forall f, f ∈ map fst checks -> supplied b f <> None) bodies ->
        exists d',
          find (matches "user" u) (profiles (serve (map (h u) bodies) w)) = Some d'
          /\ map sub_fields (subdocs path d')
             = reverse bodies ++ map sub_fields (subdocs path d)).
Proof.
  intros [-> Hpath]%put_handler_is_put_entry. split.
  - intros b w p H200.
    destruct (put_entry_200 path checks u b w p Hpath H200) as (d & Hfind & Hp & Hstored).
    by exists d, (ObjectId (next_id w)).
  - intros bodies w d Hid Hcalm Hfind Hvalid.
    apply put_entries_in_reverse; try done.
    eapply Forall_impl; [exact Hvalid|]. intros b Hb. by apply validationResult_nil.
Qed.

Lemma add_puts_new_entry_first_witness :
  exists d',
    find (matches "user" alice)
      (profiles (serve (map (put_experience alice) [first_job; second_job]) alice_world))
    = Some d'
    /\ map sub_fields (subdocs "experience" d')
       = reverse [first_job; second_job]
           ++ map sub_fields (subdocs "experience" alice_profile).
Proof.
  destruct (add_puts_new_entry_first put_experience "experience" put_experience_checks alice)
    as [_ Hadds]; [left|].
  apply Hadds.
  - reflexivity.
  - constructor.
  - reflexivity.
  - repeat constructor; intros f Hf;
      repeat (apply elem_of_cons in Hf as [->|Hf]; [by vm_compute|]);
      by apply elem_of_nil in Hf.
Defined.

(** * Further properties *)

(** ** The skills tokenizer *)

Lemma split_length sep s :
  length (JSString.split sep s) = S (count_of sep s).
Proof.
  unfold count_of. induction s as [|c rest IH]; [reflexivity|].
  simpl. rewrite (N.eqb_sym sep c).
  destruct (c =? sep)%N; simpl; [by rewrite IH|].
  pose proof (split_not_nil sep rest) as Hnil.
  destruct (JSString.split sep rest); [done | exact IH].
Qed.

Lemma trimmed_of_keeps_out (P : N -> Prop) t t' :
  trimmed_of t t' -> Forall P t -> Forall P t'.
Proof.
  intros (pre & post & -> & _) H.
  apply Forall_app in H as [_ H]. by apply Forall_app in H as [H _].
Qed.

Lemma trim_without c t : c ∉ t -> c ∉ JSString.trim t.
Proof.
  intros Hc Hin. pose proof (trim_trimmed_of t) as (pre & post & Ht & _).
  apply Hc. rewrite Ht. apply elem_of_app. right. apply elem_of_app. by left.
Qed.

(** X1. The projected skills of any string: one more than it has commas,
    none holding a comma, none with white space at either end. *)
Theorem projected_skills_shape (skills : jsstring) :
  length (project_skills skills) = S (count_of 44 skills)
  /\ Forall (fun t => (44%N ∉ t) /\ bare t) (project_skills skills).
Proof.
  unfold project_skills. split.
  - by rewrite length_map, split_length.
  - apply Forall_fmap. eapply Forall_impl; [apply (split_no_sep 44)|].
    intros t Ht. split.
    + by apply trim_without.
    + by destruct (trim_trimmed_of t) as (? & ? & _ & _ & _ & ?).
Qed.

Lemma trim_bare t : bare t -> JSString.trim t = t.
Proof.
  intros Hbare. symmetry. apply trimmed_of_unique. exists [], [].
  rewrite app_nil_r. repeat split; try constructor; apply Hbare.
Qed.

(** X2. Skills that are already trimmed and free of commas, joined with
    commas, project back to themselves. *)
Theorem project_skills_of_join (toks : list jsstring) :
  toks <> [] ->
  Forall (fun t => 44%N ∉ t) toks ->
  Forall bare toks ->
  project_skills (JSString.join 44 toks) = toks.
Proof.
  intros Hne Hcomma Hbare. unfold project_skills.
  rewrite <- (comma_tokens_unique (JSString.join 44 toks) toks) by done.
  induction Hbare as [|t rest Ht _ IH]; [done|].
  simpl. rewrite trim_bare by done. f_equal.
  destruct rest as [|t' rest']; [done|].
  apply IH; [done | by inversion Hcomma].
Qed.

Lemma project_skills_of_join_witness :
  project_skills (JSString.join 44 [js "node js"; []; js "react"])
  = [js "node js"; []; js "react"].
Proof.
  apply project_skills_of_join.
  - discriminate.
  - repeat constructor; intros H; vm_compute in H;
      repeat (apply elem_of_cons in H as [H|H]; [discriminate|]);
      by apply elem_of_nil in H.
  - repeat constructor; intros c [= <-]; reflexivity.
Defined.

Lemma split_of_blank sep (P : N -> Prop) s :
  Forall (fun c => c = sep \/ P c) s ->
  Forall (Forall P) (JSString.split sep s).
Proof.
  induction 1 as [|c rest Hc _ IH]; simpl; [by repeat constructor|].
  destruct (N.eqb_spec c sep) as [->|Hne]; [by constructor|].
  destruct Hc as [?|Hc]; [done|].
  destruct (JSString.split sep rest) as [|tok toks]; [by repeat constructor|].
  inversion IH; subst. constructor; [by constructor | done].
Qed.

Lemma trim_white t : white t -> JSString.trim t = [].
Proof.
  intros H. unfold JSString.trim, JSString.trimEnd.
  by rewrite (trimStart_all_white t).
Qed.

(** X3. A skills string made of commas and white space only passes the
    required-field check of the upsert, and every skill projected from it
    is the empty string. *)
Theorem blank_skills_project_to_empty_strings (u : jsstring) (b : body) (skills : jsstring) :
  b !! "skills" = Some skills -> skills <> [] ->
  Forall (fun c => c = 44%N \/ JSString.is_white_space c = true) skills ->
  check_not_isEmpty "skills" (js "Skill is Required") b = []
  /\ profileFields u b !! "skills"
     = Some (VArr (replicate (S (count_of 44 skills)) [])).
Proof.
  intros Hb Hne Hblank. split.
  - unfold check_not_isEmpty. rewrite Hb. by destruct skills.
  - assert (Hs : supplied b "skills" = Some skills).
    { unfold supplied. rewrite Hb. by destruct skills. }
    rewrite profileFields_skills, Hs. cbn [fmap option_fmap option_map].
    do 2 f_equal. rewrite <- (split_length 44). unfold project_skills.
    pose proof (split_of_blank 44 _ _ Hblank) as Hall.
    induction Hall as [|t toks Ht _ IH]; [done|].
    simpl. by rewrite trim_white, IH.
Qed.

Lemma blank_skills_project_to_empty_strings_witness :
  profileFields alice (<["skills" := js " , ,"]> ∅) !! "skills"
  = Some (VArr [[]; []; []]).
Proof.
  destruct (blank_skills_project_to_empty_strings alice
              (<["skills" := js " , ,"]> ∅) (js " , ,")) as [_ H].
  - reflexivity.
  - discriminate.
  - repeat constructor; (by left) || (by right).
  - exact H.
Defined.

(** ** The projector and the upsert *)

Lemma profileFields_scalar u b k :
  k ∈ scalar_paths -> profileFields u b !! k = VStr <$> supplied b k.
Proof.
  intros Hk. unfold scalar_paths in Hk.
  repeat (apply elem_of_cons in Hk as [->|Hk]);
    [| | | | | | by apply elem_of_nil in Hk];
    unfold profileFields; rewrite lookup_insert_ne by done;
    rewrite ?lookup_assign_if_ne by done;
    (rewrite lookup_assign_if_eq; [done|]);
    rewrite ?lookup_assign_if_ne by done; by rewrite lookup_insert_ne.
Qed.

Lemma profileFields_outside u b k :
  k ∉ projected_paths -> profileFields u b !! k = None.
Proof.
  intros Hk. unfold projected_paths, scalar_paths in Hk.
  rewrite !not_elem_of_cons in Hk. destruct_and!.
  unfold profileFields. rewrite lookup_insert_ne by done.
  rewrite !lookup_assign_if_ne by done. by rewrite lookup_insert_ne.
Qed.

(** X4. [profileFields] copies the six scalar fields of the body as they
    are when they are supplied, and holds no path besides them, [user],
    [social] and [skills], whatever keys the body has. *)
Theorem profileFields_holds_only_projected_paths (u : jsstring) (b : body) (k : string) :
  (k ∈ scalar_paths -> profileFields u b !! k = VStr <$> supplied b k)
  /\ (k ∉ projected_paths -> profileFields u b !! k = None).
Proof. split; [apply profileFields_scalar | apply profileFields_outside]. Qed.

Lemma update_first_fixed p f c d :
  find p c = Some d -> f d = d -> fst (update_first p f c) = c.
Proof.
  intros Hfind Hf. induction c as [|x rest IH]; simpl in *; [done|].
  destruct (p x).
  - injection Hfind as ->. simpl. by rewrite Hf.
  - destruct (update_first p f rest). simpl in *. by rewrite IH.
Qed.

Lemma set_fields_twice fields d :
  set_fields fields (set_fields fields d) = set_fields fields d.
Proof.
  unfold set_fields. simpl. by rewrite (assoc_L (∪)), (idemp_L (∪)).
Qed.

Lemma set_fields_created fields id :
  set_fields fields (created id fields) = created id fields.
Proof.
  unfold set_fields, created. simpl. by rewrite (assoc_L (∪)), (idemp_L (∪)).
Qed.

(** An upsert that answers 200 has passed the checks and found the store
    up: it rewrote the owner's first Profile, or appended a new one. *)
Lemma post_profile_200 u b w p :
  fst (run (post_profile u b) w) = Responded (Response 200 p) ->
  is_object_id u = true
  /\ validationResult post_profile_checks b = []
  /\ ((exists d,
         find (matches "user" u) (profiles w) = Some d
         /\ p = JDocument (set_fields (profileFields u b) d)
         /\ snd (run (post_profile u b) w)
            = set_collection Profile
                (fst (update_first (matches "user" u) (set_fields (profileFields u b))
                        (profiles w)))
                (advance (advance w)))
      \/ (find (matches "user" u) (profiles w) = None
          /\ existsb (matches "_id" (ObjectId (next_id w))) (profiles w) = false
          /\ p = JDocument (created (ObjectId (next_id w)) (profileFields u b))
          /\ snd (run (post_profile u b) w)
             = set_collection Profile
                 (profiles w ++ [created (ObjectId (next_id w)) (profileFields u b)])
                 (advance (set_next_id (N.succ (next_id w)) (advance w))))).
Proof.
  unfold post_profile.
  destruct (validationResult post_profile_checks b) eqn:Hval; simpl;
    [|intros H; discriminate H].
  unfold run, try_catch, bind.
  destruct (is_object_id u) eqn:Hid;
    [|rewrite findOne_invalid by done; intros H; discriminate H].
  destruct (next_fault w) as [e|] eqn:Hf;
    [rewrite (findOne_fault _ _ _ _ e) by done; intros H; discriminate H|].
  rewrite findOne_ok by done. simpl.
  destruct (find (matches "user" u) (profiles w)) as [d|] eqn:Hfind.
  - unfold findOneAndUpdate, bind, cast_object_id. rewrite Hid. simpl.
    unfold store_call.
    destruct (next_fault (advance w)) as [e|] eqn:Hf2; [intros H; discriminate H|].
    simpl.
    pose proof (update_first_found (matches "user" u) (set_fields (profileFields u b))
                  _ _ Hfind) as Hsnd.
    destruct (update_first _ _ (profiles w)) as [c' r]. simpl in *. subst r. simpl.
    intros [= <-]. split; [done|]. split; [done|]. left. by exists d.
  - unfold new_document, save_new, bind, fresh_id, ret, store_call. simpl.
    destruct (next_fault (set_next_id _ (advance w))) as [e|] eqn:Hf2;
      [intros H; discriminate H|].
    simpl. destruct (existsb _ (profiles w)) eqn:Hdup; simpl;
      [intros H; discriminate H|].
    intros [= <-]. split; [done|]. split; [done|]. right. by repeat split.
Qed.

Lemma lookup_set_fields_outside u b d k :
  k ∉ projected_paths ->
  doc_fields (set_fields (profileFields u b) d) !! k = doc_fields d !! k.
Proof. intros Hk. simpl. apply lookup_union_r. by apply profileFields_outside. Qed.

Lemma subdocs_set_fields u b d path :
  path ∉ projected_paths ->
  subdocs path (set_fields (profileFields u b) d) = subdocs path d.
Proof. intros H. unfold subdocs. by rewrite lookup_set_fields_outside. Qed.

Lemma array_path_not_projected path : path ∈ array_paths -> path ∉ projected_paths.
Proof.
  intros Hp. unfold array_paths in Hp.
  repeat (apply elem_of_cons in Hp as [->|Hp]); [| |by apply elem_of_nil in Hp];
    unfold projected_paths, scalar_paths; rewrite !not_elem_of_cons;
    repeat split; try done; apply not_elem_of_nil.
Qed.

(** X5. An upsert that updates answers, and stores, the owner's Profile
    with every path outside those of [profileFields] as it was, whatever
    keys the body carries: the experience and education lists cannot be
    changed through the upsert. *)
Theorem upsert_cannot_touch_other_paths
    (u : jsstring) (b : body) (w : world) (d : document) (p : payload) :
  find (matches "user" u) (profiles w) = Some d ->
  fst (run (post_profile u b) w) = Responded (Response 200 p) ->
  exists d',
    p = JDocument d'
    /\ find (matches "user" u) (profiles (snd (run (post_profile u b) w))) = Some d'
    /\ doc_id d' = doc_id d
    /\ (forall k, k ∉ projected_paths -> doc_fields d' !! k = doc_fields d !! k)
    /\ (forall path, path ∈ array_paths -> subdocs path d' = subdocs path d).
Proof.
  intros Hfind H200.
  destruct (post_profile_200 u b w p H200)
    as (Hid & Hval & [(d0 & Hd0 & -> & Hw)|(Hnone & _)]); [|congruence].
  assert (d0 = d) as -> by congruence.
  exists (set_fields (profileFields u b) d). split; [done|]. rewrite Hw. simpl.
  split; [|split; [done|split]].
  - apply find_update_first; [done|].
    rewrite matches_user_set_fields; by apply find_Some_holds in Hfind.
  - intros k Hk. by apply lookup_set_fields_outside.
  - intros path Hp. by apply subdocs_set_fields, array_path_not_projected.
Qed.

Lemma upsert_cannot_touch_other_paths_witness :
  exists d',
    fst (run (post_profile alice nosy_body) alice_world)
    = Responded (Response 200 (JDocument d'))
    /\ subdocs "experience" d' = subdocs "experience" alice_profile
    /\ doc_id d' = doc_id alice_profile.
Proof.
  destruct (upsert_cannot_touch_other_paths alice nosy_body alice_world alice_profile
              (JDocument (set_fields (profileFields alice nosy_body) alice_profile)))
    as (d' & Hp & _ & Hid & _ & Harrays).
  - reflexivity.
  - vm_compute. reflexivity.
  - injection Hp as <-. eexists. split; [vm_compute; reflexivity|].
    split; [apply Harrays; left | exact Hid].
Defined.

Lemma find_app_new {A} (p : A -> bool) c x :
  find p c = None -> p x = true -> find p (c ++ [x]) = Some x.
Proof.
  intros Hnone Hx. induction c as [|y rest IH]; simpl in *; [by rewrite Hx|].
  destruct (p y); [done | by apply IH].
Qed.



Lemma lookup_created_projected id fields k v :
  fields !! k = Some v -> doc_fields (created id fields) !! k = Some v.
Proof. intros H. simpl. by apply lookup_union_Some_l. Qed.




Lemma get_me_ok u w :
  is_object_id u = true -> next_fault w = None ->
  fst (run (get_me u) w)
  = Responded
      match find (matches "user" u) (profiles w) with
      | Some d => Response 200 (JDocument (populate ["name"; "avatar"] (users w) d))
      | None => Response 400 (JMsg (js "No profile for this user"))
      end.
Proof.
  intros Hid Hf. unfold get_me, run, try_catch, bind.
  rewrite findOne_populate_ok by done. simpl.
  by destruct (find (matches "user" u) (profiles w)).
Qed.

Lemma populate_other_paths paths accounts d k :
  k <> "user" -> doc_fields (populate paths accounts d) !! k = doc_fields d !! k.
Proof.
  intros Hk. unfold populate. destruct (doc_fields d !! "user") as [[]|]; try done.
  simpl. by rewrite lookup_insert_ne.
Qed.

Lemma populate_doc_id paths accounts d : doc_id (populate paths accounts d) = doc_id d.
Proof. unfold populate. by destruct (doc_fields d !! "user") as [[]|]. Qed.

(** What an upsert answered 200 leaves: the answered document is the
    owner's Profile, the accounts are as they were. *)
Lemma post_profile_200_stored u b w d' :
  fst (run (post_profile u b) w) = Responded (Response 200 (JDocument d')) ->
  find (matches "user" u) (profiles (snd (run (post_profile u b) w))) = Some d'
  /\ users (snd (run (post_profile u b) w)) = users w
  /\ faults (snd (run (post_profile u b) w)) = tail (tail (faults w))
  /\ set_fields (profileFields u b) d' = d'
  /\ (forall k v, profileFields u b !! k = Some v -> doc_fields d' !! k = Some v).
Proof.
  intros H200.
  destruct (post_profile_200 u b w _ H200)
    as (Hid & Hval & [(d & Hd & [= ->] & ->)|(Hnone & Hdup & [= ->] & ->)]); simpl.
  - split; [|split; [done|split; [done|split]]].
    + apply find_update_first; [done|].
      rewrite matches_user_set_fields; by apply find_Some_holds in Hd.
    + apply set_fields_twice.
    + intros k v Hk. by apply lookup_union_Some_l.
  - split; [|split; [done|split; [done|split]]].
    + apply find_app_new; [done|].
      apply matches_user_intro, (lookup_created_projected (ObjectId (next_id w))),
        profileFields_user.
    + apply set_fields_created.
    + intros k v Hk. by apply lookup_union_Some_l.
Qed.

(** X7. After an upsert answered 200, GET api/profile/me for the same
    owner (the store answering) answers 200 with the document the upsert
    answered, its [user] populated: every path [profileFields] projected
    from the body is in it with the projected value. *)
Theorem profile_reads_back_after_upsert
    (u : jsstring) (b : body) (w : world) (d' : document) :
  fst (run (post_profile u b) w) = Responded (Response 200 (JDocument d')) ->
  next_fault (snd (run (post_profile u b) w)) = None ->
  exists seen,
    fst (run (get_me u) (snd (run (post_profile u b) w)))
    = Responded (Response 200 (JDocument seen))
    /\ seen = populate ["name"; "avatar"] (users w) d'
    /\ doc_id seen = doc_id d'
    /\ (forall k v, k <> "user" -> profileFields u b !! k = Some v ->
          doc_fields seen !! k = Some v).
Proof.
  intros H200 Hnext.
  destruct (post_profile_200_stored u b w d' H200) as (Hfind & Husers & _ & _ & Hproj).
  destruct (post_profile_200 u b w _ H200) as (Hid & _).
  exists (populate ["name"; "avatar"] (users w) d').
  rewrite get_me_ok by done. rewrite Hfind, Husers.
  split; [done|]. split; [done|]. split; [apply populate_doc_id|].
  intros k v Hk Hv. rewrite populate_other_paths by done. by apply Hproj.
Qed.

Lemma profile_reads_back_after_upsert_witness :
  exists seen,
    fst (run (get_me alice) (snd (run (post_profile alice status_and_skills) alice_world)))
    = Responded (Response 200 (JDocument seen))
    /\ doc_fields seen !! "skills" = Some (VArr [js "js"])
    /\ doc_fields seen !! "user"
       = Some (VObj (<["_id" := alice]> (<["name" := js "Alice"]>
                      (<["avatar" := js "a.png"]> ∅)))).
Proof.
  destruct (profile_reads_back_after_upsert alice status_and_skills alice_world
              (set_fields (profileFields alice status_and_skills) alice_profile))
    as (seen & Hrun & Hseen & _ & Hproj).
  - vm_compute. reflexivity.
  - reflexivity.
  - exists seen. split; [exact Hrun|]. split.
    + apply Hproj; [discriminate | reflexivity].
    + rewrite Hseen. vm_compute. reflexivity.
Defined.

Lemma calm_tail_tail w w' : calm w -> faults w' = tail (tail (faults w)) -> calm w'.
Proof.
  unfold calm. intros H ->. destruct (faults w) as [|f1 [|f2 rest]]; simpl;
    try by constructor.
  inversion H as [|? ? _ H2]; subst. by inversion H2.
Qed.

(** X8. The upsert is idempotent: served again with the same body right
    after it answered 200 (the store still answering), it answers the same
    document and leaves the Profile collection as the first one left it. *)
Theorem upsert_twice_is_upsert_once
    (u : jsstring) (b : body) (w : world) (p : payload) :
  calm w ->
  fst (run (post_profile u b) w) = Responded (Response 200 p) ->
  fst (run (post_profile u b) (snd (run (post_profile u b) w)))
  = Responded (Response 200 p)
  /\ profiles (snd (run (post_profile u b) (snd (run (post_profile u b) w))))
     = profiles (snd (run (post_profile u b) w)).
Proof.
  intros Hcalm H200.
  destruct (post_profile_200 u b w p H200) as (Hid & Hval & Hcases).
  assert (exists d', p = JDocument d') as [d' ->].
  { destruct Hcases as [(d & _ & -> & _)|(_ & _ & -> & _)]; eauto. }
  destruct (post_profile_200_stored u b w d' H200) as (Hfind & _ & Hfaults & Hfix & _).
  set (w' := snd (run (post_profile u b) w)) in *.
  assert (Hcalm' : calm w') by (by apply (calm_tail_tail w)).
  rewrite (post_profile_update u b w' d') by done. simpl.
  rewrite Hfix. split; [done|]. by apply (update_first_fixed _ _ _ d').
Qed.

Lemma upsert_twice_is_upsert_once_witness :
  profiles (serve [post_profile bob status_and_skills; post_profile bob status_and_skills]
              alice_world)
  = profiles (serve [post_profile bob status_and_skills] alice_world).
Proof.
  apply (upsert_twice_is_upsert_once bob status_and_skills alice_world
           (JDocument (created (ObjectId 16) (profileFields bob status_and_skills)))).
  - constructor.
  - vm_compute. reflexivity.
Defined.

Lemma others_update_first u f c :
  (forall x, matches "user" u x = true -> matches "user" u (f x) = true) ->
  others u (fst (update_first (matches "user" u) f c)) = others u c.
Proof.
  intros Hf. unfold others. induction c as [|x rest IH]; simpl; [done|].
  destruct (matches "user" u x) eqn:Hx.
  - simpl. by rewrite (Hf x Hx).
  - destruct (update_first _ f rest). simpl in *. rewrite Hx. simpl. by rewrite IH.
Qed.

Lemma post_profile_other_collections u b w :
  users (snd (run (post_profile u b) w)) = users w
  /\ posts (snd (run (post_profile u b) w)) = posts w.
Proof.
  unfold post_profile.
  destruct (validationResult post_profile_checks b); simpl; [|done].
  unfold run, try_catch, bind.
  destruct (is_object_id u) eqn:Hid; [|by rewrite findOne_invalid by done].
  destruct (next_fault w) as [e|] eqn:Hf;
    [by rewrite (findOne_fault _ _ _ _ e) by done|].
  rewrite findOne_ok by done. simpl.
  destruct (find (matches "user" u) (profiles w)) as [d|] eqn:Hfind.
  - unfold findOneAndUpdate, bind, cast_object_id. rewrite Hid. simpl.
    unfold store_call.
    destruct (next_fault (advance w)) as [e|] eqn:Hf2; [done|].
    simpl. by destruct (update_first _ _ (profiles w)).
  - unfold new_document, save_new, bind, fresh_id, ret, store_call. simpl.
    destruct (next_fault (set_next_id _ (advance w))) as [e|] eqn:Hf2; [done|].
    simpl. by destruct (existsb _ (profiles w)).
Qed.

(** X9. An upsert, whatever it answers, leaves the Profiles of the other
    owners, the accounts and the posts as they were. *)
Theorem upsert_touches_only_its_owner (u : jsstring) (b : body) (w : world) :
  others u (profiles (snd (run (post_profile u b) w))) = others u (profiles w)
  /\ users (snd (run (post_profile u b) w)) = users w
  /\ posts (snd (run (post_profile u b) w)) = posts w.
Proof.
  split; [|apply post_profile_other_collections].
  destruct (post_profile_profiles u b w) as [->|[(d & Hfind & ->)|(Hnone & d & Hd & ->)]].
  - reflexivity.
  - apply others_update_first. intros x Hx. by rewrite matches_user_set_fields.
  - unfold others. rewrite List.filter_app. simpl.
    rewrite (matches_user_intro u d Hd). simpl. apply app_nil_r.
Qed.

(** ** What the handlers answer *)

Lemma delete_entry_outcome path u target w :
  exists r, fst (run (delete_entry path u target) w) = Responded r
    /\ (statusCode r = 200 \/ r = Response 500 (Text (js "Server Error"))).
Proof.
  unfold delete_entry, run, try_catch, bind.
  destruct (is_object_id u) eqn:Hid;
    [|rewrite findOne_invalid by done; eexists; split; [reflexivity | by right]].
  destruct (next_fault w) as [e|] eqn:Hf;
    [rewrite (findOne_fault _ _ _ _ e) by done; eexists; split; [reflexivity | by right]|].
  rewrite findOne_ok by done. simpl.
  destruct (find (matches "user" u) (profiles w)) as [d|] eqn:Hfind;
    [|eexists; split; [reflexivity | by right]].
  unfold save, store_call.
  destruct (next_fault (advance w)) as [e|] eqn:Hf2;
    eexists; split; try reflexivity; by (left + right).
Qed.

Lemma findOne_populate_fault m path id paths w e :
  is_object_id id = true -> next_fault w = Some e ->
  findOne_populate m path id paths w = (Throw e, advance w).
Proof.
  intros Hid Hf. unfold findOne_populate, bind, cast_object_id. rewrite Hid. simpl.
  by rewrite (store_call_fault _ _ e).
Qed.

Lemma get_me_answers u : always_answers (get_me u).
Proof.
  intros w. unfold get_me, run, try_catch, bind.
  destruct (is_object_id u) eqn:Hid;
    [|rewrite findOne_populate_invalid by done; eexists; split; [reflexivity | by do 2 right]].
  destruct (next_fault w) as [e|] eqn:Hf;
    [rewrite (findOne_populate_fault _ _ _ _ _ e) by done;
     eexists; split; [reflexivity | by do 2 right]|].
  rewrite findOne_populate_ok by done. simpl.
  destruct (find (matches "user" u) (profiles w)); simpl;
    eexists; split; try reflexivity; [by left | by right; left].
Qed.

Lemma get_profile_by_user_answers u : always_answers (get_profile_by_user u).
Proof.
  intros w. destruct (to_ObjectId u) as [owner|] eqn:Hcast.
  - pose proof (to_ObjectId_is_object_id u owner Hcast) as Hid.
    unfold get_profile_by_user, run, try_catch, bind, cast_to_ObjectId.
    rewrite Hcast. simpl. destruct (next_fault w) as [e|] eqn:Hf.
    + rewrite (findOne_populate_fault _ _ _ _ _ e) by done. simpl.
      destruct (bool_decide (kind e = Some "ObjectId"));
        eexists; split; try reflexivity; [by right; left | by do 2 right].
    + rewrite findOne_populate_ok by done. simpl.
      destruct (find (matches "user" owner) (profiles w)); simpl;
        eexists; split; try reflexivity; [by left | by right; left].
  - rewrite get_profile_by_user_uncastable by done.
    eexists; split; [reflexivity | by right; left].
Qed.

Lemma valid_outcome_answers (h : Eff response) w :
  (exists r, fst (run h w) = Responded r
     /\ (statusCode r = 200 \/ r = Response 500 (Text (js "Server Error")))) ->
  exists r, fst (run h w) = Responded r
    /\ (statusCode r = 200 \/ statusCode r = 400
        \/ r = Response 500 (Text (js "Server Error"))).
Proof. intros (r & Hr & [H|H]); exists r; split; auto. Qed.

(** X10. The four handlers that read no request body and whose catch
    blocks call [console.error] (GET me, GET user/:user_id, DELETE
    experience/:exp_id, DELETE education/:edu_id) answer every request, in
    every world and under every schedule of store failures: with 200, with
    400, or with 500 and the text "Server Error". *)
Theorem bodyless_handlers_always_answer (u target : jsstring) :
  always_answers (get_me u)
  /\ always_answers (get_profile_by_user u)
  /\ always_answers (delete_experience u target)
  /\ always_answers (delete_education u target).
Proof.
  repeat split.
  - apply get_me_answers.
  - apply get_profile_by_user_answers.
  - intros w. apply valid_outcome_answers, delete_entry_outcome.
  - intros w. apply valid_outcome_answers, delete_entry_outcome.
Qed.

Lemma upsert_outcome u fields w :
  exists r, fst (run (upsert u fields) w) = Responded r
    /\ (statusCode r = 200 \/ r = Response 500 (Text (js "Server Error"))).
Proof.
  unfold upsert, run, try_catch, bind.
  destruct (is_object_id u) eqn:Hid;
    [|rewrite findOne_invalid by done; eexists; split; [reflexivity | by right]].
  destruct (next_fault w) as [e|] eqn:Hf;
    [rewrite (findOne_fault _ _ _ _ e) by done; eexists; split; [reflexivity | by right]|].
  rewrite findOne_ok by done. simpl.
  destruct (find (matches "user" u) (profiles w)) as [d|] eqn:Hfind.
  - unfold findOneAndUpdate, bind, cast_object_id. rewrite Hid. simpl.
    unfold store_call.
    destruct (next_fault (advance w)) as [e|] eqn:Hf2;
      [eexists; split; [reflexivity | by right]|].
    simpl. destruct (update_first _ _ (profiles w)). simpl.
    eexists; split; [reflexivity | by left].
  - unfold new_document, save_new, bind, fresh_id, ret, store_call. simpl.
    destruct (next_fault (set_next_id _ (advance w))) as [e|] eqn:Hf2;
      [eexists; split; [reflexivity | by right]|].
    simpl. destruct (existsb _ (profiles w)); simpl;
      eexists; split; try reflexivity; by (left + right).
Qed.

Lemma add_entry_outcome path u newEntry w :
  exists r, fst (run (add_entry path u newEntry) w) = Responded r
    /\ (statusCode r = 200 \/ r = Response 500 (Text (js "Server Error"))).
Proof.
  unfold add_entry, run, try_catch, bind.
  destruct (is_object_id u) eqn:Hid;
    [|rewrite findOne_invalid by done; eexists; split; [reflexivity | by right]].
  destruct (next_fault w) as [e|] eqn:Hf;
    [rewrite (findOne_fault _ _ _ _ e) by done; eexists; split; [reflexivity | by right]|].
  rewrite findOne_ok by done. simpl.
  destruct (find (matches "user" u) (profiles w)) as [d|] eqn:Hfind;
    [|eexists; split; [reflexivity | by right]].
  unfold fresh_id, save, store_call. simpl.
  destruct (next_fault (set_next_id _ (advance w))) as [e|] eqn:Hf2;
    eexists; split; try reflexivity; by (left + right).
Qed.

Lemma put_entry_request_valid_outcome path checks u r w :
  validationResult_of checks r = [] ->
  exists r0, fst (run (put_entry_request path checks u r) w) = Responded r0
    /\ (statusCode r0 = 200 \/ r0 = Response 500 (Text (js "Server Error"))).
Proof.
  intros Hval. destruct (add_entry_outcome path u (req_body r) w) as (r0 & Hr0 & Hst).
  exists r0. split; [|done].
  unfold put_entry_request. rewrite Hval. simpl.
  unfold run, try_catch in *.
  destruct (add_entry path u (req_body r) w) as [[a|e] w'] eqn:Hrun; simpl in *; [done|].
  discriminate Hr0.
Qed.

Lemma post_profile_request_valid_outcome u r w :
  validationResult_of post_profile_checks r = [] ->
  exists r0, fst (run (post_profile_request u r) w) = Responded r0
    /\ (statusCode r0 = 200 \/ r0 = Response 500 (Text (js "Server Error"))).
Proof.
  intros Hval. unfold post_profile_request. rewrite Hval. simpl.
  apply upsert_outcome.
Qed.

(** X11. The upsert and the two adds answer 400 exactly when a required
    field of the route is violated in the request: no location of the
    request (body, cookies, headers, route parameters, query) has it, or a
    location has it empty.  A required field that only the query carries
    gives no 400, and neither a store failure nor a missing Profile
    does. *)
Theorem status_400_iff_required_field_violated
    (h : jsstring -> req -> Eff response) (checks : list (string * jsstring))
    (u : jsstring) (r : req) (w : world) :
  (h, checks) ∈ [(post_profile_request, post_profile_checks);
                 (put_experience_request, put_experience_checks);
                 (put_education_request, put_education_checks)] ->
  (exists r0, fst (run (h u r) w) = Responded r0 /\ statusCode r0 = 400)
  <-> (exists f, f ∈ map fst checks /\ violated f r).
Proof.
  intros Hh.
  assert (Hvalid : validationResult_of checks r = [] ->
            exists r0, fst (run (h u r) w) = Responded r0
              /\ (statusCode r0 = 200 \/ r0 = Response 500 (Text (js "Server Error")))).
  { repeat (apply elem_of_cons in Hh as [[= -> ->]|Hh]);
      [apply post_profile_request_valid_outcome | apply put_entry_request_valid_outcome
      | apply put_entry_request_valid_outcome | by apply elem_of_nil in Hh]. }
  assert (Hrejected : validationResult_of checks r <> [] ->
            fst (run (h u r) w)
            = Responded (Response 400 (JErrors (validationResult_of checks r)))).
  { intros Hne. repeat (apply elem_of_cons in Hh as [[= -> ->]|Hh]);
      [by rewrite rejected_post_profile_request
      | unfold put_experience_request; by rewrite rejected_put_entry_request
      | unfold put_education_request; by rewrite rejected_put_entry_request
      | by apply elem_of_nil in Hh]. }
  destruct (validationResult_of checks r) as [|e l] eqn:Hval.
  - split.
    + intros (r0 & Hr & H400). destruct (Hvalid eq_refl) as (r' & Hr' & Hst).
      rewrite Hr in Hr'. injection Hr' as <-.
      destruct Hst as [H200| ->]; [congruence | discriminate H400].
    + intros (f & Hf & Hv).
      by destruct (proj1 (validationResult_of_nil checks r) Hval f Hf).
  - split.
    + intros _. assert (He : e ∈ validationResult_of checks r) by (rewrite Hval; left).
      apply validationResult_of_sound in He as [Hin Hv].
      exists (param e). split; [|done]. apply list_elem_of_fmap.
      by exists (param e, msg e).
    + intros _. eexists. split; [by apply Hrejected|]. reflexivity.
Qed.

Lemma status_400_iff_required_field_violated_witness :
  (exists r0,
     fst (run (put_education_request alice incomplete_education) alice_world) = Responded r0
     /\ statusCode r0 = 400)
  /\ ~ (exists r0,
          fst (run (post_profile_request alice status_in_query) alice_world) = Responded r0
          /\ statusCode r0 = 400).
Proof.
  split.
  - apply (status_400_iff_required_field_violated put_education_request
             put_education_checks); [right; right; left|].
    exists "degree". split; [right; left|]. left. by repeat constructor.
  - intros H400.
    apply (status_400_iff_required_field_violated post_profile_request
             post_profile_checks) in H400 as (f & Hf & Hv); [|left].
    assert (Hnil : validationResult_of post_profile_checks status_in_query = [])
      by reflexivity.
    by apply (proj1 (validationResult_of_nil _ _) Hnil f).
Defined.

(** ** The sub-list editor, further *)

(** X12. An add (its required fields given) or a delete for an owner who
    has no Profile reads a property of null: the request is answered 500
    "Server Error", the TypeError is logged, and the collections are as
    they were. *)
Theorem list_edit_without_profile_answers_500
    (path : string) (checks : list (string * jsstring))
    (u target : jsstring) (b : body) (w : world) :
  is_object_id u = true -> next_fault w = None ->
  find (matches "user" u) (profiles w) = None ->
  validationResult checks b = [] ->
  run (put_entry path checks u b) w
    = (Responded (Response 500 (Text (js "Server Error"))),
       set_stderr (stderr w ++ [null_profile path]) (advance w))
  /\ run (delete_entry path u target) w
    = (Responded (Response 500 (Text (js "Server Error"))),
       set_stderr (stderr w ++ [null_profile path]) (advance w)).
Proof.
  intros Hid Hf Hnone Hval. split.
  - unfold put_entry. rewrite Hval. simpl. unfold run, try_catch, bind.
    rewrite findOne_ok by done. simpl. by rewrite Hnone.
  - unfold delete_entry, run, try_catch, bind.
    rewrite findOne_ok by done. simpl. by rewrite Hnone.
Qed.

Lemma list_edit_without_profile_answers_500_witness :
  fst (run (put_experience bob first_job) alice_world)
    = Responded (Response 500 (Text (js "Server Error")))
  /\ profiles (snd (run (delete_education bob (ObjectId 3)) alice_world))
     = profiles alice_world.
Proof.
  destruct (list_edit_without_profile_answers_500 "experience" put_experience_checks
              bob (ObjectId 3) first_job alice_world) as [Hput _]; try reflexivity.
  destruct (list_edit_without_profile_answers_500 "education" put_education_checks
              bob (ObjectId 3) (<["school" := js "MIT"]> (<["degree" := js "BSc"]>
                 (<["from" := js "2010"]> (<["fieldofstudy" := js "CS"]> ∅)))) alice_world)
    as [_ Hdel]; try reflexivity.
  split.
  - unfold put_experience. by rewrite Hput.
  - unfold delete_education. by rewrite Hdel.
Defined.

Lemma splice_indexOf_removes_one {A} (f : A -> jsstring) (l : list A) target :
  let l' := JSArray.splice l (JSArray.indexOf (map f l) target) 1 in
  (l = [] /\ l' = [])
  \/ (exists before x after, l = before ++ x :: after /\ l' = before ++ after).
Proof.
  intros l'. subst l'. destruct (decide (target ∈ map f l)) as [Hin|Hout].
  - right. destruct (indexOf_from_first_match f l target Hin)
      as (before & x & after & Hl & _ & _ & Hidx).
    exists before, x, after. split; [done|].
    unfold JSArray.indexOf. rewrite Hidx, Z.add_0_l, Hl. apply splice_one_at.
  - unfold JSArray.indexOf. rewrite indexOf_from_no_match by done.
    destruct l as [|y rest]; [by left|]. right.
    destruct (@exists_last _ (y :: rest)) as (init & last & Hl); [done|].
    exists init, last, []. rewrite Hl. split; [done|].
    rewrite splice_last. by rewrite app_nil_r.
Qed.

(** X13. A delete that reaches the owner's Profile takes exactly one entry
    out of a list that has any, whatever the target identifier is, and
    leaves an empty list empty; it answers 200 either way. *)
Theorem delete_always_removes_one_entry
    (h : jsstring -> jsstring -> Eff response) (path : string)
    (u target : jsstring) (w : world) (d : document) :
  (h, path) ∈ [(delete_experience, "experience"); (delete_education, "education")] ->
  is_object_id u = true -> calm w ->
  find (matches "user" u) (profiles w) = Some d ->
  exists d',
    fst (run (h u target) w) = Responded (Response 200 (JDocument d'))
    /\ find (matches "user" u) (profiles (snd (run (h u target) w))) = Some d'
    /\ ((subdocs path d = [] /\ subdocs path d' = [])
        \/ (exists before x after,
              subdocs path d = before ++ x :: after
              /\ subdocs path d' = before ++ after)).
Proof.
  intros Hh Hid Hcalm Hfind.
  pose proof (sublist_path_not_user _ _ _ _ Hh) as Hpath.
  rewrite (delete_handler_is_delete_entry _ _ Hh).
  rewrite (delete_entry_ok path u target w d) by done. cbv zeta. cbn [fst snd].
  eexists. split; [reflexivity|]. split; [by apply find_after_save|].
  rewrite subdocs_set_subdocs. apply splice_indexOf_removes_one.
Qed.

Lemma delete_always_removes_one_entry_witness :
  exists d',
    fst (run (delete_education alice (ObjectId 3)) alice_world)
    = Responded (Response 200 (JDocument d'))
    /\ subdocs "education" d' = [].
Proof.
  destruct (delete_always_removes_one_entry delete_education "education"
              alice (ObjectId 3) alice_world alice_profile)
    as (d' & Hrun & _ & _).
  - right. left.
  - reflexivity.
  - constructor.
  - reflexivity.
  - exists d'. split; [exact Hrun|].
    vm_compute in Hrun. injection Hrun as <-. reflexivity.
Defined.

Lemma calm_after_put w c :
  calm w ->
  calm (set_collection Profile c (advance (set_next_id (N.succ (next_id w)) (advance w)))).
Proof.
  intros H. by apply calm_set_collection, calm_advance, calm_set_next_id, calm_advance.
Qed.

(** X14. Adding an entry and then deleting the entry under the identifier
    the add gave it brings the list, and the whole Profile document read
    by its paths, back to what it was. *)
Theorem add_then_delete_restores_the_list
    (path : string) (checks : list (string * jsstring))
    (u : jsstring) (b : body) (w : world) (d : document) :
  path <> "user" ->
  is_object_id u = true -> calm w ->
  find (matches "user" u) (profiles w) = Some d ->
  validationResult checks b = [] ->
  exists added w1 d2,
    run (put_entry path checks u b) w = (Responded (Response 200 (JDocument added)), w1)
    /\ head (subdocs path added) = Some (Subdoc (ObjectId (next_id w)) b)
    /\ fst (run (delete_entry path u (ObjectId (next_id w))) w1)
       = Responded (Response 200 (JDocument d2))
    /\ find (matches "user" u)
         (profiles (snd (run (delete_entry path u (ObjectId (next_id w))) w1)))
       = Some d2
    /\ subdocs path d2 = subdocs path d
    /\ doc_id d2 = doc_id d
    /\ (forall k, k <> path -> doc_fields d2 !! k = doc_fields d !! k).
Proof.
  intros Hpath Hid Hcalm Hfind Hval.
  set (new := Subdoc (ObjectId (next_id w)) b).
  set (d1 := set_subdocs path (new :: subdocs path d) d).
  pose proof (put_entry_ok path checks u b w d Hval Hid Hcalm Hfind) as Hput.
  cbv zeta in Hput. fold new d1 in Hput.
  eexists d1, _, _. split; [exact Hput|].
  split; [by unfold d1; rewrite subdocs_set_subdocs|].
  assert (Hfind1 : find (matches "user" u)
            (fst (update_first (matches "_id" (doc_id d)) (fun _ => d1) (profiles w)))
          = Some d1) by (by apply find_after_save).
  rewrite (delete_entry_ok path u _ _ d1); [|done|by apply calm_after_put|exact Hfind1].
  cbv zeta. cbn [fst snd].
  assert (Hsplice : JSArray.splice (subdocs path d1)
            (JSArray.indexOf (map sub_id (subdocs path d1)) (ObjectId (next_id w))) 1
          = subdocs path d).
  { unfold d1. rewrite subdocs_set_subdocs. cbn [map].
    unfold JSArray.indexOf. rewrite indexOf_from_cons, decide_True by done.
    apply (splice_one_at []). }
  rewrite Hsplice. split; [reflexivity|]. split.
  - apply (find_after_save path (subdocs path d) d1 u); [done | exact Hfind1].
  - split; [apply subdocs_set_subdocs|]. split; [done|].
    intros k Hk. unfold d1. by rewrite !lookup_set_subdocs.
Qed.

Lemma add_then_delete_restores_the_list_witness :
  exists d2,
    find (matches "user" alice)
      (profiles (serve [put_experience alice first_job;
                        delete_experience alice (ObjectId 16)] alice_world))
    = Some d2
    /\ subdocs "experience" d2 = subdocs "experience" alice_profile.
Proof.
  destruct (add_then_delete_restores_the_list "experience" put_experience_checks
              alice first_job alice_world alice_profile)
    as (added & w1 & d2 & Hput & _ & _ & Hfind & Hlist & _).
  - discriminate.
  - reflexivity.
  - constructor.
  - reflexivity.
  - reflexivity.
  - exists d2. split; [|exact Hlist].
    cbn [serve]. unfold put_experience, delete_experience.
    rewrite Hput. cbn [snd]. exact Hfind.
Defined.

Lemma put_entry_world path checks u b w :
  let w' := snd (run (put_entry path checks u b) w) in
  users w' = users w /\ posts w' = posts w
  /\ (profiles w' = profiles w
      \/ exists d a,
           find (matches "user" u) (profiles w) = Some d
           /\ profiles w'
              = fst (update_first (matches "_id" (doc_id d))
                       (fun _ => set_subdocs path a d) (profiles w))).
Proof.
  unfold put_entry.
  destruct (validationResult checks b); simpl;
    [|unfold run, try_catch; simpl; by repeat split; try left].
  unfold run, try_catch, bind.
  destruct (is_object_id u) eqn:Hid;
    [|rewrite findOne_invalid by done; by repeat split; try left].
  destruct (next_fault w) as [e|] eqn:Hf;
    [rewrite (findOne_fault _ _ _ _ e) by done; by repeat split; try left|].
  rewrite findOne_ok by done. simpl.
  destruct (find (matches "user" u) (profiles w)) as [d|] eqn:Hfind;
    [|by repeat split; try left].
  unfold fresh_id, save, store_call. simpl.
  destruct (next_fault (set_next_id _ (advance w))) as [e|] eqn:Hf2;
    [by repeat split; try left|].
  simpl. split; [done|]. split; [done|]. right. by eexists d, _.
Qed.

Lemma delete_entry_world path u target w :
  let w' := snd (run (delete_entry path u target) w) in
  users w' = users w /\ posts w' = posts w
  /\ (profiles w' = profiles w
      \/ exists d a,
           find (matches "user" u) (profiles w) = Some d
           /\ profiles w'
              = fst (update_first (matches "_id" (doc_id d))
                       (fun _ => set_subdocs path a d) (profiles w))).
Proof.
  unfold delete_entry, run, try_catch, bind.
  destruct (is_object_id u) eqn:Hid;
    [|rewrite findOne_invalid by done; by repeat split; try left].
  destruct (next_fault w) as [e|] eqn:Hf;
    [rewrite (findOne_fault _ _ _ _ e) by done; by repeat split; try left|].
  rewrite findOne_ok by done. simpl.
  destruct (find (matches "user" u) (profiles w)) as [d|] eqn:Hfind;
    [|by repeat split; try left].
  unfold save, store_call.
  destruct (next_fault (advance w)) as [e|] eqn:Hf2;
    [by repeat split; try left|].
  simpl. split; [done|]. split; [done|]. right. by eexists d, _.
Qed.

Lemma find_elem_of {A} (p : A -> bool) c d : find p c = Some d -> d ∈ c.
Proof. intros H. apply find_some in H as [H _]. by apply list_elem_of_In. Qed.

(** With unique identifiers, saving over the loaded document changes that
    document and no other. *)
Lemma replace_by_id p c d d' :
  unique_ids c -> find p c = Some d ->
  exists l1 l2,
    c = l1 ++ d :: l2
    /\ fst (update_first (matches "_id" (doc_id d)) (fun _ => d') c) = l1 ++ d' :: l2.
Proof.
  unfold unique_ids. induction c as [|x rest IH]; intros Hnd Hfind; [done|].
  simpl in *. inversion Hnd as [|? ? Hx Hrest]; subst.
  destruct (p x) eqn:Hpx.
  - injection Hfind as ->. rewrite matches_id_self. by exists [], rest.
  - assert (Hne : matches "_id" (doc_id d) x = false).
    { unfold matches. simpl. apply bool_decide_eq_false. intros Heq.
      apply Hx. rewrite Heq. apply list_elem_of_fmap. exists d. split; [done|].
      by apply find_elem_of in Hfind. }
    rewrite Hne. destruct (IH Hrest Hfind) as (l1 & l2 & -> & Hup).
    destruct (update_first _ _ (l1 ++ d :: l2)). simpl in *. subst.
    by exists (x :: l1), l2.
Qed.

(** X15. In a collection where no two Profiles share an [_id], an add or a
    delete of an entry, whatever it answers, leaves the Profiles of the
    other owners, the identifiers in the collection, the number of
    Profiles of every owner, the accounts and the posts as they were. *)
Theorem list_edit_touches_only_its_owner
    (edit : Eff response) (path : string) (checks : list (string * jsstring))
    (u target : jsstring) (b : body) (w : world) :
  edit = put_entry path checks u b \/ edit = delete_entry path u target ->
  path <> "user" ->
  unique_ids (profiles w) ->
  others u (profiles (snd (run edit w))) = others u (profiles w)
  /\ map doc_id (profiles (snd (run edit w))) = map doc_id (profiles w)
  /\ (forall owner,
        length (List.filter (matches "user" owner) (profiles (snd (run edit w))))
        = length (List.filter (matches "user" owner) (profiles w)))
  /\ users (snd (run edit w)) = users w
  /\ posts (snd (run edit w)) = posts w.
Proof.
  intros Hedit Hpath Hunique.
  assert (Hworld : users (snd (run edit w)) = users w /\ posts (snd (run edit w)) = posts w
    /\ (profiles (snd (run edit w)) = profiles w
        \/ exists d a,
             find (matches "user" u) (profiles w) = Some d
             /\ profiles (snd (run edit w))
                = fst (update_first (matches "_id" (doc_id d))
                         (fun _ => set_subdocs path a d) (profiles w)))).
  { destruct Hedit as [-> | ->]; [apply put_entry_world | apply delete_entry_world]. }
  destruct Hworld as (Husers & Hposts & [->|(d & a & Hfind & ->)]); [done|].
  destruct (replace_by_id _ _ d (set_subdocs path a d) Hunique Hfind)
    as (l1 & l2 & Hc & ->).
  pose proof (find_Some_holds _ _ _ Hfind) as Hd.
  rewrite Hc. repeat split; try done.
  - unfold others. rewrite !List.filter_app. simpl.
    by rewrite matches_user_set_subdocs, Hd.
  - by rewrite !map_app.
  - intros owner. rewrite !List.filter_app. simpl.
    rewrite matches_user_set_subdocs by done. rewrite !length_app.
    by destruct (matches "user" owner d).
Qed.

Lemma list_edit_touches_only_its_owner_witness :
  others alice (profiles (snd (run (put_experience alice first_job) busy_world)))
  = [bob_profile].
Proof.
  destruct (list_edit_touches_only_its_owner (put_experience alice first_job)
              "experience" put_experience_checks alice alice first_job busy_world)
    as (Hothers & _).
  - by left.
  - discriminate.
  - unfold unique_ids. apply (bool_decide_unpack _). vm_compute. exact I.
  - rewrite Hothers. reflexivity.
Defined.

(** ** The cascading delete *)

Lemma delete_profile_ok u w :
  is_object_id u = true -> calm w ->
  fst (run (delete_profile u) w) = Responded (Response 200 (JMsg (js "User Deleted")))
  /\ posts (snd (run (delete_profile u) w)) = others u (posts w)
  /\ profiles (snd (run (delete_profile u) w))
     = remove_first (matches "user" u) (profiles w)
  /\ users (snd (run (delete_profile u) w)) = remove_first (matches "_id" u) (users w).
Proof.
  intros Hid Hcalm.
  pose proof (calm_next_fault _ Hcalm) as Hf1.
  pose proof (calm_next_fault _ (calm_advance _ Hcalm)) as Hf2.
  pose proof (calm_next_fault _ (calm_advance _ (calm_advance _ Hcalm))) as Hf3.
  unfold delete_profile, deleteMany, findOneAndRemove, cast_object_id, store_call,
    run, try_catch, bind.
  rewrite Hid. simpl. rewrite Hf1. simpl.
  unfold next_fault in *. simpl in *. rewrite Hf2. simpl. rewrite Hf3. by simpl.
Qed.

Lemma find_others u c : find (matches "user" u) (others u c) = None.
Proof.
  unfold others. induction c as [|x rest IH]; simpl; [done|].
  destruct (matches "user" u x) eqn:Hx; simpl; [done|]. by rewrite Hx.
Qed.

Lemma others_remove_first u c :
  others u (remove_first (matches "user" u) c) = others u c.
Proof.
  unfold others. induction c as [|x rest IH]; simpl; [done|].
  destruct (matches "user" u x) eqn:Hx; simpl; [done|]. by rewrite Hx, IH.
Qed.

Lemma find_None_of_filter {A} (p : A -> bool) c : List.filter p c = [] -> find p c = None.
Proof.
  induction c as [|x rest IH]; simpl; [done|]. destruct (p x); [done | exact IH].
Qed.

Lemma remove_first_last_match p c :
  (length (List.filter p c) <= 1)%nat -> find p (remove_first p c) = None.
Proof.
  induction c as [|x rest IH]; simpl; [done|].
  destruct (p x) eqn:Hx; simpl.
  - intros Hone. apply find_None_of_filter.
    destruct (List.filter p rest); [done | simpl in Hone; lia].
  - rewrite Hx. exact IH.
Qed.

Lemma unique_ids_at_most_one id c :
  unique_ids c -> (length (List.filter (matches "_id" id) c) <= 1)%nat.
Proof.
  unfold unique_ids. induction c as [|x rest IH]; simpl; [lia|].
  intros Hnd. inversion Hnd as [|? ? Hx Hrest]; subst.
  destruct (matches "_id" id x) eqn:Hm; simpl; [|by apply IH].
  assert (List.filter (matches "_id" id) rest = []) as ->; [|simpl; lia].
  apply filter_find_None. destruct (find _ rest) as [y|] eqn:Hy; [|done].
  exfalso. apply Hx. unfold matches in Hm. simpl in Hm.
  apply bool_decide_eq_true in Hm. rewrite Hm.
  pose proof (find_Some_holds _ _ _ Hy) as Hmy. unfold matches in Hmy. simpl in Hmy.
  apply bool_decide_eq_true in Hmy. rewrite <- Hmy.
  apply list_elem_of_fmap. exists y. split; [done | by apply find_elem_of in Hy].
Qed.

Lemma elem_of_remove_first p c (x : document) :
  x ∈ c -> p x = false -> x ∈ remove_first p c.
Proof.
  intros Hin Hx. induction c as [|y rest IH]; simpl; [done|].
  apply elem_of_cons in Hin as [->|Hin].
  - rewrite Hx. left.
  - destruct (p y); [done|]. right. by apply IH.
Qed.

(** X16. DELETE api/profile with the store answering: it answers 200
    "User Deleted"; no post of the owner is left and the posts of the
    others stay, in order; the Profiles of the others stay, and the owner
    has none left if there was at most one; with unique account
    identifiers the owner's account is gone and every other account
    stays. *)
Theorem cascading_delete_removes_the_owner (u : jsstring) (w : world) :
  is_object_id u = true -> calm w ->
  let w' := snd (run (delete_profile u) w) in
  fst (run (delete_profile u) w) = Responded (Response 200 (JMsg (js "User Deleted")))
  /\ posts w' = others u (posts w)
  /\ find (matches "user" u) (posts w') = None
  /\ others u (profiles w') = others u (profiles w)
  /\ (at_most_one u (profiles w) -> find (matches "user" u) (profiles w') = None)
  /\ (unique_ids (users w) -> find (matches "_id" u) (users w') = None)
  /\ (forall x, x ∈ users w -> doc_id x <> u -> x ∈ users w').
Proof.
  intros Hid Hcalm w'. subst w'.
  destruct (delete_profile_ok u w Hid Hcalm) as (Hrun & -> & -> & ->).
  split; [done|]. split; [done|]. split; [apply find_others|].
  split; [apply others_remove_first|]. split; [|split].
  - apply remove_first_last_match.
  - intros Hunique. by apply remove_first_last_match, unique_ids_at_most_one.
  - intros x Hin Hx. apply elem_of_remove_first; [done|].
    unfold matches. simpl. by apply bool_decide_eq_false.
Qed.

Lemma cascading_delete_removes_the_owner_witness :
  let w' := snd (run (delete_profile bob) busy_world) in
  posts w' = [post_by 8 alice]
  /\ profiles w' = [alice_profile]
  /\ users w' = [alice_account].
Proof.
  destruct (cascading_delete_removes_the_owner bob busy_world) as (_ & Hposts & _).
  - reflexivity.
  - constructor.
  - split; [rewrite Hposts; reflexivity|]. split; vm_compute; reflexivity.
Defined.

(** X17. The cascading delete is not undone when it fails midway: if the
    store answers the deletion of the posts and fails at the deletion of
    the Profile, the owner's posts are gone, the Profile and the account
    are still there, and the request gets no answer (the TypeError of
    [console.err] leaves the handler). *)
Theorem cascading_delete_is_not_rolled_back (u : jsstring) (w : world) (e : js_error) :
  is_object_id u = true ->
  next_fault w = None -> next_fault (advance w) = Some e ->
  let w' := snd (run (delete_profile u) w) in
  fst (run (delete_profile u) w) = Uncaught (TypeError "console.err is not a function")
  /\ posts w' = others u (posts w)
  /\ profiles w' = profiles w
  /\ users w' = users w.
Proof.
  intros Hid Hf1 Hf2 w'. subst w'.
  unfold delete_profile, deleteMany, findOneAndRemove, cast_object_id, store_call,
    run, try_catch, bind.
  rewrite Hid. simpl. rewrite Hf1. simpl.
  unfold next_fault in *. simpl in *. rewrite Hf2. by simpl.
Qed.

Lemma cascading_delete_is_not_rolled_back_witness :
  let w' := snd (run (delete_profile bob) failing_midway) in
  fst (run (delete_profile bob) failing_midway)
    = Uncaught (TypeError "console.err is not a function")
  /\ posts w' = [post_by 8 alice]
  /\ profiles w' = [alice_profile; bob_profile]
  /\ users w' = [alice_account; bob_account].
Proof.
  destruct (cascading_delete_is_not_rolled_back bob failing_midway
              (StoreError "connection lost")) as (Hrun & Hposts & Hprofiles & Husers);
    try reflexivity.
  split; [exact Hrun|]. split; [rewrite Hposts; reflexivity|].
  split; [exact Hprofiles | exact Husers].
Defined.

(** ** The proxy, further *)

Lemma get_github_unconfigured wf username up w :
  config w !! "githubClientId" = None \/ config w !! "githubClientSecret" = None ->
  exists property,
    run (get_github wf username up) w
    = (Responded (Response 500 (Text (js "Server Error"))),
       set_stderr (stderr w ++ [ConfigError property]) w).
Proof.
  intros Hmissing. unfold get_github, bind, try_catch, config_get, request, ret, run.
  destruct (config w !! "githubClientId") as [clientId|] eqn:Hid.
  - destruct Hmissing as [?|Hsecret]; [done|]. rewrite Hsecret.
    by exists "githubClientSecret".
  - by exists "githubClientId".
Qed.

(** X18. When the client id or the client secret is not configured, the
    proxy sends nothing upstream and answers 500 "Server Error", whatever
    the upstream would have said; the configuration error is logged. *)
Theorem proxy_without_credentials_sends_nothing
    (wf : jsstring -> bool) (username : jsstring) (up : upstream) (w : world) :
  config w !! "githubClientId" = None \/ config w !! "githubClientSecret" = None ->
  fst (run (get_github wf username up) w)
    = Responded (Response 500 (Text (js "Server Error")))
  /\ outbound (snd (run (get_github wf username up) w)) = outbound w
  /\ exists property,
       stderr (snd (run (get_github wf username up) w))
       = stderr w ++ [ConfigError property].
Proof.
  intros Hmissing.
  destruct (get_github_unconfigured wf username up w Hmissing) as (property & ->).
  split; [done|]. split; [done|]. by exists property.
Qed.

Lemma proxy_without_credentials_sends_nothing_witness :
  fst (run (get_github (fun _ => true) (js "octocat") (Reply 200 (js "[]"))) empty_world)
    = Responded (Response 500 (Text (js "Server Error")))
  /\ outbound (snd (run (get_github (fun _ => true) (js "octocat") (Reply 200 (js "[]")))
                     empty_world)) = [].
Proof.
  destruct (proxy_without_credentials_sends_nothing (fun _ => true) (js "octocat")
              (Reply 200 (js "[]")) empty_world) as (Hrun & Hout & _).
  - by left.
  - by split.
Defined.

(** X19. With both credentials configured the proxy sends exactly one
    request, to the URI of the template, and then: a transport error is
    logged and leaves the callback on a TypeError, with no answer; a 200
    whose body is well-formed JSON is relayed as 200; a 200 whose body is
    not leaves the callback on the SyntaxError of [JSON.parse], with no
    answer. *)
Theorem proxy_outcomes_by_upstream
    (wf : jsstring -> bool) (username clientId clientSecret : jsstring)
    (up : upstream) (w : world) :
  config w !! "githubClientId" = Some clientId ->
  config w !! "githubClientSecret" = Some clientSecret ->
  let after := run (get_github wf username up) w in
  outbound (snd after) = outbound w ++ [github_uri username clientId clientSecret]
  /\ (forall error, up = TransportError error ->
        fst after = Uncaught (TypeError "Cannot read property 'statusCode' of undefined")
        /\ stderr (snd after) = stderr w ++ [error])
  /\ (forall text, up = Reply 200 text -> wf text = true ->
        fst after = Responded (Response 200 (JParsed text)))
  /\ (forall text, up = Reply 200 text -> wf text = false ->
        fst after = Uncaught (SyntaxError "Unexpected token in JSON")).
Proof.
  intros Hid Hsecret after. subst after. unfold run.
  rewrite (get_github_configured wf username up w clientId clientSecret) by done.
  split; [|split; [|split]].
  - destruct up as [error|status text]; simpl; [done|].
    destruct (status =? 200); simpl; [|done]. by destruct (wf text).
  - by intros error ->.
  - intros text -> Hwf. simpl. by rewrite Hwf.
  - intros text -> Hwf. simpl. by rewrite Hwf.
Qed.

Lemma proxy_outcomes_by_upstream_witness :
  fst (run (get_github (fun _ => true) (js "octocat")
              (TransportError (StoreError "ECONNREFUSED"))) alice_world)
  = Uncaught (TypeError "Cannot read property 'statusCode' of undefined").
Proof.
  destruct (proxy_outcomes_by_upstream (fun _ => true) (js "octocat") (js "ID") (js "SECRET")
              (TransportError (StoreError "ECONNREFUSED")) alice_world)
    as (_ & Herr & _).
  - reflexivity.
  - reflexivity.
  - by destruct (Herr (StoreError "ECONNREFUSED") eq_refl).
Defined.

Lemma after_app_absent c s1 s2 : c ∉ s1 -> after c (s1 ++ s2) = after c s2.
Proof.
  induction s1 as [|x rest IH]; intros Hc; [done|]. simpl.
  destruct (N.eqb_spec x c) as [->|Hne]; [exfalso; apply Hc; left|].
  apply IH. intros H. apply Hc. by right.
Qed.

Lemma after_app_present c s1 s2 rest :
  after c s1 = Some rest -> after c (s1 ++ s2) = Some (rest ++ s2).
Proof.
  induction s1 as [|x s1 IH]; simpl; [done|].
  destruct (x =? c)%N; [by intros [= ->] | exact IH].
Qed.

Lemma after_absent c s : c ∉ s -> after c s = None.
Proof.
  intros H. rewrite <- (app_nil_r s). by rewrite after_app_absent.
Qed.

Lemma before_app_absent c s1 s2 : c ∉ s1 -> before c (s1 ++ s2) = s1 ++ before c s2.
Proof.
  induction s1 as [|x rest IH]; intros Hc; [done|]. simpl.
  destruct (N.eqb_spec x c) as [->|Hne]; [exfalso; apply Hc; left|].
  rewrite IH; [done|]. intros H. apply Hc. by right.
Qed.

Lemma before_app_present c s1 s2 : c ∈ s1 -> before c (s1 ++ s2) = before c s1.
Proof.
  induction s1 as [|x rest IH]; intros Hc; [by apply elem_of_nil in Hc|]. simpl.
  destruct (N.eqb_spec x c) as [->|Hne]; [done|].
  apply elem_of_cons in Hc as [->|Hc]; [done|]. by rewrite IH.
Qed.

Lemma before_absent c s : c ∉ s -> before c s = s.
Proof.
  intros H. rewrite <- (app_nil_r s) at 1. rewrite before_app_absent by done.
  apply app_nil_r.
Qed.

Lemma literal_without (c : N) (s : jsstring) :
  forallb (fun x => negb (x =? c)%N) s = true -> c ∉ s.
Proof.
  induction s as [|x rest IH]; simpl; [intros _; apply not_elem_of_nil|].
  intros [Hx Hrest]%andb_true_iff. apply not_elem_of_cons. split; [|by apply IH].
  intros ->. by rewrite N.eqb_refl in Hx.
Qed.

(** The URI has a number sign only where the username or a credential
    brings one. *)
Lemma github_uri_without_fragment username clientId clientSecret :
  (35%N ∉ username) -> (35%N ∉ clientId) -> (35%N ∉ clientSecret) ->
  35%N ∉ github_uri username clientId clientSecret.
Proof.
  intros Hu Hi Hs. unfold github_uri.
  repeat (apply not_elem_of_app; split); try done; by apply literal_without.
Qed.

Lemma query_string_plain username clientId clientSecret :
  (63%N ∉ username) ->
  (35%N ∉ username) -> (35%N ∉ clientId) -> (35%N ∉ clientSecret) ->
  query_string (github_uri username clientId clientSecret)
  = js "per_page=5&sort=created: " ++ [10%N]
      ++ js "            asc&client_id=" ++ clientId
      ++ js "&client_secret" ++ clientSecret.
Proof.
  intros Hq Hu Hi Hs. unfold query_string.
  rewrite before_absent by (by apply github_uri_without_fragment).
  unfold github_uri.
  rewrite (after_app_absent 63 (js "https://api.github.com/users/"))
    by (by apply literal_without).
  by rewrite (after_app_absent 63 username) by done.
Qed.

(** X20. The username goes into the URI as it is.  When neither it nor
    the credentials hold a number sign: without a question mark in the
    username the query is the one of the template, and with one the query
    starts inside the username, ahead of the template's own.  When the
    username holds a number sign with no question mark before it, the rest
    of the URI is a fragment and the request has no query at all. *)
Theorem username_is_not_escaped (username clientId clientSecret : jsstring) :
  ((63%N ∉ username) ->
   (35%N ∉ username) -> (35%N ∉ clientId) -> (35%N ∉ clientSecret) ->
     query_string (github_uri username clientId clientSecret)
     = js "per_page=5&sort=created: " ++ [10%N]
         ++ js "            asc&client_id=" ++ clientId
         ++ js "&client_secret" ++ clientSecret)
  /\ (forall rest,
        (35%N ∉ username) -> (35%N ∉ clientId) -> (35%N ∉ clientSecret) ->
        after 63 username = Some rest ->
        query_string (github_uri username clientId clientSecret)
        = rest ++ js "/repos?per_page=5&sort=created: " ++ [10%N]
            ++ js "            asc&client_id=" ++ clientId
            ++ js "&client_secret" ++ clientSecret)
  /\ (35%N ∈ username -> (63%N ∉ before 35 username) ->
        query_string (github_uri username clientId clientSecret) = []).
Proof.
  split; [apply query_string_plain|]. split.
  - intros rest Hu Hi Hs Hrest. unfold query_string.
    rewrite before_absent by (by apply github_uri_without_fragment).
    unfold github_uri.
    rewrite (after_app_absent 63 (js "https://api.github.com/users/"))
      by (by apply literal_without).
    by rewrite (after_app_present 63 username _ rest).
  - intros Hfrag Hq. unfold query_string, github_uri.
    rewrite (before_app_absent 35 (js "https://api.github.com/users/"))
      by (by apply literal_without).
    rewrite (before_app_present 35 username) by done.
    rewrite (after_app_absent 63 (js "https://api.github.com/users/"))
      by (by apply literal_without).
    by rewrite after_absent.
Qed.

(** X21. For a username without question mark or number sign, a client id
    and a client secret without ampersand or number sign, and a secret
    that is not empty and does not begin with an equals sign, the query of
    the request has four parameters: [per_page=5], the [sort] that runs
    over the line break, [client_id] with the configured id, and one whose
    name is "client_secret" followed by the secret; none is named
    [client_secret]. *)
Theorem query_never_names_the_secret (username clientId clientSecret : jsstring) :
  (63%N ∉ username) -> (35%N ∉ username) ->
  (38%N ∉ clientId) -> (35%N ∉ clientId) ->
  (38%N ∉ clientSecret) -> (35%N ∉ clientSecret) ->
  before 61 clientSecret <> [] ->
  query_parameters (github_uri username clientId clientSecret)
  = [(js "per_page", Some (js "5"));
     (js "sort", Some (js "created: " ++ [10%N] ++ js "            asc"));
     (js "client_id", Some clientId);
     (js "client_secret" ++ before 61 clientSecret, after 61 clientSecret)]
  /\ (forall v,
        (js "client_secret", v)
        ∉ query_parameters (github_uri username clientId clientSecret)).
Proof.
  intros Hq Hfu Hid Hfi Hsecret Hfs Hname.
  assert (Hparams : query_parameters (github_uri username clientId clientSecret)
    = [(js "per_page", Some (js "5"));
       (js "sort", Some (js "created: " ++ [10%N] ++ js "            asc"));
       (js "client_id", Some clientId);
       (js "client_secret" ++ before 61 clientSecret, after 61 clientSecret)]).
  { unfold query_parameters. rewrite query_string_plain by done.
    change (js "per_page=5&sort=created: " ++ [10%N]
              ++ js "            asc&client_id=" ++ clientId
              ++ js "&client_secret" ++ clientSecret)
      with (js "per_page=5" ++ 38%N
              :: (js "sort=created: " ++ [10%N] ++ js "            asc") ++ 38%N
              :: (js "client_id=" ++ clientId) ++ 38%N
              :: (js "client_secret" ++ clientSecret)).
    rewrite (split_app_sep 38 (js "per_page=5")) by (by apply literal_without).
    rewrite (split_app_sep 38 (js "sort=created: " ++ [10%N] ++ js "            asc"))
      by (by apply literal_without).
    rewrite (split_app_sep 38 (js "client_id=" ++ clientId))
      by (apply not_elem_of_app; split; [by apply literal_without | done]).
    rewrite (split_without_sep 38 (js "client_secret" ++ clientSecret))
      by (apply not_elem_of_app; split; [by apply literal_without | done]).
    reflexivity. }
  split; [exact Hparams|].
  intros v. rewrite Hparams. intros H.
  do 3 (apply elem_of_cons in H as [H|H]; [by injection H|]).
  apply elem_of_cons in H as [H|H]; [|by apply elem_of_nil in H].
  injection H as Hempty _. by apply Hname.
Qed.

Lemma query_never_names_the_secret_witness :
  (js "client_secret", Some (js "s3cr3t"))
  ∉ query_parameters (github_uri (js "torvalds") (js "abc123") (js "s3cr3t")).
Proof.
  destruct (query_never_names_the_secret (js "torvalds") (js "abc123") (js "s3cr3t"))
    as [_ H]; try (by apply literal_without); [discriminate | apply H].
Defined.

(** A username with a number sign, as [%23] in the path brings it: no
    query is left. *)
Example fragment_takes_the_query :
  query_string (github_uri (js "octo#cat") (js "ID") (js "SECRET")) = [].
Proof. reflexivity. Qed.

(** ** The reading routes *)

Lemma get_me_read_only u : read_only (get_me u).
Proof.
  intros w. unfold get_me, run, try_catch, bind.
  destruct (is_object_id u) eqn:Hid; [|by rewrite findOne_populate_invalid by done].
  destruct (next_fault w) as [e|] eqn:Hf;
    [by rewrite (findOne_populate_fault _ _ _ _ _ e) by done|].
  rewrite findOne_populate_ok by done. simpl.
  by destruct (find (matches "user" u) (profiles w)).
Qed.

Lemma get_profile_by_user_read_only u : read_only (get_profile_by_user u).
Proof.
  intros w. destruct (to_ObjectId u) as [owner|] eqn:Hcast.
  - pose proof (to_ObjectId_is_object_id u owner Hcast) as Hid.
    unfold get_profile_by_user, run, try_catch, bind, cast_to_ObjectId.
    rewrite Hcast. simpl. destruct (next_fault w) as [e|] eqn:Hf.
    + rewrite (findOne_populate_fault _ _ _ _ _ e) by done. simpl.
      by destruct (bool_decide (kind e = Some "ObjectId")).
    + rewrite findOne_populate_ok by done. simpl.
      by destruct (find (matches "user" owner) (profiles w)).
  - by rewrite get_profile_by_user_uncastable.
Qed.

Lemma get_profiles_read_only : read_only get_profiles.
Proof.
  intros w. unfold get_profiles, run, try_catch, bind, find_populate, store_call.
  by destruct (next_fault w).
Qed.

Lemma get_github_read_only wf username up : read_only (get_github wf username up).
Proof.
  intros w. unfold get_github, bind, try_catch, config_get, request, ret, run.
  destruct (config w !! "githubClientId"); [|done].
  destruct (config w !! "githubClientSecret"); [|done].
  destruct up as [error|status text]; simpl; [done|].
  destruct (status =? 200); simpl; [|done]. by destruct (wf text).
Qed.

(** X22. The four reading routes leave the Profiles, the accounts and the
    posts as they are, whatever they answer and whether or not the store
    fails. *)
Theorem reading_routes_change_no_collection
    (wf : jsstring -> bool) (u username : jsstring) (up : upstream) :
  read_only (get_me u)
  /\ read_only get_profiles
  /\ read_only (get_profile_by_user u)
  /\ read_only (get_github wf username up).
Proof.
  split; [apply get_me_read_only|]. split; [apply get_profiles_read_only|].
  split; [apply get_profile_by_user_read_only | apply get_github_read_only].
Qed.







(** X24. GET api/profile with the store answering answers 200 with one
    document for every stored Profile, in the order of the collection, each
    with the [_id] and every path but [user] of the Profile it comes
    from. *)
Theorem list_all_answers_every_profile (w : world) :
  next_fault w = None ->
  exists listed,
    fst (run get_profiles w) = Responded (Response 200 (JDocuments listed))
    /\ map doc_id listed = map doc_id (profiles w)
    /\ Forall2 (fun d seen => forall k, k <> "user" ->
                  doc_fields seen !! k = doc_fields d !! k)
         (profiles w) listed.
Proof.
  intros Hf. exists (map (populate ["name"; "avatar"] (users w)) (profiles w)).
  split; [|split].
  - unfold get_profiles, run, try_catch, bind, find_populate.
    by rewrite store_call_ok by done.
  - rewrite map_map. apply map_ext. intros d. apply populate_doc_id.
  - apply Forall2_fmap_r, Forall_Forall2_diag, Forall_forall.
    intros d _ k Hk. by apply populate_other_paths.
Qed.

Lemma list_all_answers_every_profile_witness :
  exists listed,
    fst (run get_profiles busy_world) = Responded (Response 200 (JDocuments listed))
    /\ map doc_id listed = [ObjectId 2; ObjectId 6].
Proof.
  destruct (list_all_answers_every_profile busy_world) as (listed & Hrun & Hids & _).
  - reflexivity.
  - by exists listed.
Defined.
